(** * scripts/process4.py: the per-document pipeline of the PDF archive processor

    A shallow embedding of [is_scanned_pdf], [compress_pdf_in_memory] and
    [process_file], and the properties of the outcome router.

    Conventions of the embedding.
    - Python [bytes] are lists of bytes, Python [str] messages are strings,
      the text extracted from a page is a list of Unicode code points (so
      that [str.strip] sees the same white space as Python does).
    - Python exceptions are values of [exn]; a computation that may raise has
      type [outcome A].  [process_file] mutates its [result] dictionary and
      its local [file_data] before and after exceptions are raised, so it runs
      in a state-and-exception monad whose state survives a raise.
    - The collaborators the script calls but does not define (the archive
      reader, PyMuPDF, [random.sample], the Ghostscript process, [bytes.decode]
      and [Path.stem]) are the fields of a [World]; every theorem quantifies
      over the world.
    - [Path.mkdir] and [Path.write_bytes] ask the file system of the world,
      which may raise; the calls that return are recorded, in order, in a
      trace of file-system events.
    - [len(x) / 1024] and the compression ratio are Python floats; they are
      modelled by the exact rationals they denote. *)

From Stdlib Require Import List String Ascii Bool Arith ZArith NArith QArith Lia Lqa.
From Stdlib Require Import Strings.Byte DecimalString.
Import ListNotations.

Local Close Scope Q_scope.
Local Open Scope string_scope.
Local Open Scope list_scope.

(** ** Data *)

Definition bytes := list byte.

(** The text of a page: Unicode code points. *)
Definition text := list N.

(** [pathlib.PurePosixPath]: an anchor and the components below it. *)
Record Path := mkPath { absolute : bool; parts : list string }.

(** [p / q]: an absolute right operand replaces the left one. *)
Definition joinpath (p q : Path) : Path :=
  if absolute q then q else mkPath (absolute p) (parts p ++ parts q).

(** [Path(name)] for a [str] without a separator, as [Path.stem] is: one
    component, or none for the empty string and for a lone dot. *)
Definition path_of_name (name : string) : Path :=
  mkPath false (if String.eqb name "" || String.eqb name "." then [] else [name]).

(** [p.parent] *)
Definition parent (p : Path) : Path :=
  mkPath (absolute p) (removelast (parts p)).

(** [str(p)] *)
Definition path_str (p : Path) : string :=
  match parts p with
  | [] => if absolute p then "/" else "."
  | _ => (if absolute p then "/" else "") ++ String.concat "/" (parts p)
  end.


(** ** Exceptions *)

(** The exception classes that occur: [Exception] is what the script raises
    itself, [ForeignError] stands for what the collaborators raise
    ([KeyError], [BadZipFile], [FileDataError], [OSError], ...).  All of them
    derive from [Exception], so [except Exception] catches each. *)
Inductive exn : Type :=
| Exception (msg : string)
| ZeroDivisionError (msg : string)
| ValueError (msg : string)
| ForeignError (msg : string).

(** [str(e)] *)
Definition str (e : exn) : string :=
  match e with
  | Exception m | ZeroDivisionError m | ValueError m | ForeignError m => m
  end.

Inductive outcome (A : Type) : Type :=
| Return (a : A)
| Raise (e : exn).
Arguments Return {A} a.
Arguments Raise {A} e.

Module Exc.
Definition bind {A B} (m : outcome A) (k : A -> outcome B) : outcome B :=
  match m with
  | Return a => k a
  | Raise e => Raise e
  end.

(** [try: m  except Exception as e: h e] *)
Definition try_except {A} (m : outcome A) (h : exn -> outcome A) : outcome A :=
  match m with
  | Return a => Return a
  | Raise e => h e
  end.
End Exc.

Declare Scope exc_scope.
Delimit Scope exc_scope with exc.
Notation "x <- m ;; k" := (Exc.bind m (fun x => k))
  (at level 61, m at next level, right associativity) : exc_scope.
Notation "m ;; k" := (Exc.bind m (fun _ => k))
  (at level 61, right associativity) : exc_scope.

(** ** White space and [str.strip] *)

(** [str.isspace] on one code point (CPython's [_PyUnicode_IsWhitespace]). *)
Definition py_isspace (c : N) : bool :=
  ((9 <=? c) && (c <=? 13) || (28 <=? c) && (c <=? 32)
   || (c =? 133) || (c =? 160) || (c =? 5760)
   || (8192 <=? c) && (c <=? 8202)
   || (c =? 8232) || (c =? 8233) || (c =? 8239) || (c =? 8287)
   || (c =? 12288))%N.

Fixpoint lstrip (s : text) : text :=
  match s with
  | [] => []
  | c :: rest => if py_isspace c then lstrip rest else s
  end.

Definition rstrip (s : text) : text := rev (lstrip (rev s)).

(** [s.strip()] *)
Definition strip (s : text) : text := rstrip (lstrip s).

(** Truth value of a sequence: non-empty. *)
Definition truthy {A} (l : list A) : bool :=
  match l with
  | [] => false
  | _ :: _ => true
  end.

(** ** The collaborators *)

(** A page as PyMuPDF shows it: [page.get_text()] and
    [page.get_images(full=True)] (the images by cross-reference number);
    either call may raise. *)
Record Page := mkPage {
  get_text : outcome text;
  get_images : outcome (list nat)
}.

(** An open [fitz.Document]: [len(doc)] and [doc.load_page(n)]. *)
Record Document := mkDocument {
  page_count : nat;
  load_page : nat -> outcome Page
}.

(** What [subprocess.Popen(...)] followed by [process.communicate(input)]
    gives: an exception, or the exit status with the two captured streams. *)
Inductive PopenOutcome : Type :=
| PopenRaises (e : exn)
| Completed (returncode : Z) (stdout stderr : bytes).

(** The calls that change the file system, once they have returned. *)
Inductive io_event : Type :=
| Mkdir (p : Path)                    (* p.mkdir(parents=True, exist_ok=True) *)
| WriteBytes (p : Path) (data : bytes). (* p.write_bytes(data) *)

Record World := mkWorld {
  (** [Path.stem] *)
  stem : Path -> string;
  (** [zipfile.ZipFile(zip_path, 'r').read(name)] *)
  zip_read : Path -> string -> outcome bytes;
  (** [fitz.open(stream=data, filetype="pdf")] *)
  fitz_open : bytes -> outcome Document;
  (** [random.sample(range(population), k)] for [0 <= k <= population]:
      the choice made by the generator *)
  random_sample : nat -> nat -> list nat;
  (** the Ghostscript process on a given standard input *)
  ghostscript : bytes -> PopenOutcome;
  (** [bytes.decode()] *)
  decode : bytes -> outcome string;
  (** [p.mkdir(parents=True, exist_ok=True)] after the calls that have
      returned so far: [None] when it returns, the message of the
      [OSError] when it raises (a component of [p] is a regular file,
      the name is too long, ...) *)
  fs_mkdir : list io_event -> Path -> option string;
  (** [p.write_bytes(data)] after the calls that have returned so far:
      [None] when it returns, the message of the [OSError] when it raises
      ([p] is a directory, the disk is full, ...) *)
  fs_write_bytes : list io_event -> Path -> bytes -> option string
}.

(** ** [is_scanned_pdf] *)

(** [random.sample(range(population), k)]: raises [ValueError] when [k] is
    negative or exceeds the population. *)
Definition py_random_sample (W : World) (population : nat) (k : Z)
  : outcome (list nat) :=
  if ((k <? 0) || (Z.of_nat population <? k))%Z
  then Raise (ValueError "Sample larger than population or is negative")
  else Return (random_sample W population (Z.to_nat k)).

(** The [for page_num in sample_pages] loop of [is_scanned_pdf]. *)
Fixpoint check_pages (doc : Document) (sample_pages : list nat) : outcome bool :=
  match sample_pages with
  | [] => Return true
  | page_num :: rest =>
      (page <- load_page doc page_num ;;
       page_text <- get_text page ;;
       if truthy (strip page_text) then Return false
       else
         images <- get_images page ;;
         if negb (truthy images) then Return false
         else check_pages doc rest)%exc
  end.

Definition is_scanned_pdf (W : World) (pdf_data : bytes) (num_pages_to_check : Z)
  : outcome bool :=
  Exc.try_except
    (doc <- fitz_open W pdf_data ;;
     let total_pages := page_count doc in
     if Nat.eqb total_pages 0 then Return false
     else
       let num_pages_to_check := Z.min num_pages_to_check (Z.of_nat total_pages) in
       sample_pages <- py_random_sample W total_pages num_pages_to_check ;;
       check_pages doc sample_pages)%exc
    (fun _ => Return false).

(** ** [compress_pdf_in_memory] *)

Definition compress_pdf_in_memory (W : World) (pdf_data : bytes) : outcome bytes :=
  Exc.try_except
    (match ghostscript W pdf_data with
     | PopenRaises e => Raise e
     | Completed returncode compressed_data stderr =>
         if negb (returncode =? 0)%Z
         then (diagnostic <- decode W stderr ;;
               Raise (Exception ("Ghostscript error: " ++ diagnostic)))%exc
         else Return compressed_data
     end)
    (fun e => Raise (Exception ("Compression failed: " ++ str e))).

(** ** [process_file]: arguments, result and local state *)

(** The argument tuple of [process_file]. *)
Record Task := mkTask {
  zip_path : Path;
  file_path : Path;
  compressed_dir : Path;
  scanned_dir : Path;
  failure_dir : Path
}.

(** The [result] dictionary, one field per key. *)
Module Res.
Record t := mk {
  zip_name : string;
  file_path : string;
  status : string;
  original_size : Q;
  compressed_size : Q;
  compression_ratio : Q;
  error : string
}.
End Res.

(** The sizes are in KB: [len(data) / 1024]. *)
Definition kb (data : bytes) : Q := (inject_Z (Z.of_nat (List.length data)) / 1024)%Q.

(** Python's [a / b] on floats. *)
Definition py_truediv (a b : Q) : outcome Q :=
  if Qeq_bool b 0 then Raise (ZeroDivisionError "float division by zero")
  else Return (a / b)%Q.

(** Python's [a < b] on floats. *)
Definition Qlt_bool (a b : Q) : bool := negb (Qle_bool b a).

(** What a run of [process_file] can change: the [result] dictionary, the
    local [file_data] (unbound until the read succeeds) and the file system,
    as the list of the calls that have returned so far. *)
Record Frame := mkFrame {
  result : Res.t;
  file_data : option bytes;
  events : list io_event
}.

Module M.
Definition t (A : Type) : Type := Frame -> outcome A * Frame.

Definition ret {A} (a : A) : t A := fun fr => (Return a, fr).

Definition bind {A B} (m : t A) (k : A -> t B) : t B :=
  fun fr =>
    match m fr with
    | (Return a, fr') => k a fr'
    | (Raise e, fr') => (Raise e, fr')
    end.

Definition raise {A} (e : exn) : t A := fun fr => (Raise e, fr).

(** [try: m  except Exception as e: h e]; the handler starts in the state
    the raise left. *)
Definition try_except {A} (m : t A) (h : exn -> t A) : t A :=
  fun fr =>
    match m fr with
    | (Return a, fr') => (Return a, fr')
    | (Raise e, fr') => h e fr'
    end.

(** A call that touches none of the state. *)
Definition call {A} (o : outcome A) : t A := fun fr => (o, fr).

Definition get_result : t Res.t := fun fr => (Return (result fr), fr).

(** [result.update({...})] and [result[key] = v] *)
Definition update (f : Res.t -> Res.t) : t unit :=
  fun fr => (Return tt, mkFrame (f (result fr)) (file_data fr) (events fr)).

(** binding the local [file_data] *)
Definition bind_file_data (data : bytes) : t unit :=
  fun fr => (Return tt, mkFrame (result fr) (Some data) (events fr)).

(** [file_data if 'file_data' in locals() else b''] *)
Definition file_data_or_empty : t bytes :=
  fun fr => (Return (match file_data fr with Some d => d | None => [] end), fr).

Definition emit (ev : io_event) : t unit :=
  fun fr => (Return tt, mkFrame (result fr) (file_data fr) (events fr ++ [ev])).

(** [p.mkdir(parents=True, exist_ok=True)]: raises what the file system
    raises, and is recorded when it returns. *)
Definition mkdir (W : World) (p : Path) : t unit :=
  fun fr =>
    match fs_mkdir W (events fr) p with
    | Some msg => (Raise (ForeignError msg), fr)
    | None => emit (Mkdir p) fr
    end.

(** [p.write_bytes(data)]: raises what the file system raises, and is
    recorded when it returns. *)
Definition write_bytes (W : World) (p : Path) (data : bytes) : t unit :=
  fun fr =>
    match fs_write_bytes W (events fr) p data with
    | Some msg => (Raise (ForeignError msg), fr)
    | None => emit (WriteBytes p data) fr
    end.
End M.

Declare Scope proc_scope.
Delimit Scope proc_scope with proc.
Notation "x <- m ;; k" := (M.bind m (fun x => k))
  (at level 61, m at next level, right associativity) : proc_scope.
Notation "m ;; k" := (M.bind m (fun _ => k))
  (at level 61, right associativity) : proc_scope.

(** The three output roots a document can be routed into. *)
Inductive Bucket : Type := Compressed | Scanned | Failure.

Definition bucket_dir (args : Task) (b : Bucket) : Path :=
  match b with
  | Compressed => compressed_dir args
  | Scanned => scanned_dir args
  | Failure => failure_dir args
  end.

(** [bucket_dir / zip_name / file_path] *)
Definition output_path_in (W : World) (args : Task) (b : Bucket) : Path :=
  joinpath (joinpath (bucket_dir args b) (path_of_name (stem W (zip_path args))))
           (file_path args).

(** [output_path.parent.mkdir(parents=True, exist_ok=True)] followed by
    [output_path.write_bytes(data)] *)
Definition save (W : World) (output_path : Path) (data : bytes) : M.t unit :=
  (M.mkdir W (parent output_path) ;;
   M.write_bytes W output_path data)%proc.

Definition initial_result (W : World) (args : Task) : Res.t :=
  Res.mk (stem W (zip_path args)) (path_str (file_path args)) "failed" 0 0 0 "".

(** [result['original_size'] = v] *)
Definition set_original_size (v : Q) (r : Res.t) : Res.t :=
  Res.mk (Res.zip_name r) (Res.file_path r) (Res.status r) v
         (Res.compressed_size r) (Res.compression_ratio r) (Res.error r).

(** [result.update({'status': 'success (scanned)',
                    'compressed_size': result['original_size']})] *)
Definition update_scanned (r : Res.t) : Res.t :=
  Res.mk (Res.zip_name r) (Res.file_path r) "success (scanned)" (Res.original_size r)
         (Res.original_size r) (Res.compression_ratio r) (Res.error r).

(** [result.update({'status': ..., 'compressed_size': ..., 'compression_ratio': ...})] *)
Definition update_compressed (st : string) (size ratio : Q) (r : Res.t) : Res.t :=
  Res.mk (Res.zip_name r) (Res.file_path r) st (Res.original_size r)
         size ratio (Res.error r).

(** [result.update({'status': f'failed: {str(e)}', 'error': str(e),
                    'compressed_size': result['original_size']})] *)
Definition update_failed (e : exn) (r : Res.t) : Res.t :=
  Res.mk (Res.zip_name r) (Res.file_path r) ("failed: " ++ str e) (Res.original_size r)
         (Res.original_size r) (Res.compression_ratio r) (str e).

(** The body of the inner [try]: lines 136-156. *)
Definition attempt_compression (W : World) (args : Task) (file_data : bytes)
  : M.t unit :=
  (compressed_data <- M.call (compress_pdf_in_memory W file_data) ;;
   let compressed_size := kb compressed_data in
   r <- M.get_result ;;
   let '(output_path, save_data, compression_status) :=
     if Qlt_bool compressed_size (Res.original_size r)
     then (output_path_in W args Compressed, compressed_data, "compressed")
     else (output_path_in W args Compressed, file_data, "uncompressed (larger size)") in
   save W output_path save_data ;;
   r <- M.get_result ;;
   quotient <- M.call (py_truediv (Res.original_size r - kb save_data)
                                  (Res.original_size r)) ;;
   M.update (update_compressed ("success (" ++ compression_status ++ ")")
                               (kb save_data) (quotient * 100)))%proc.

(** The handler of the inner [try]: lines 158-163. *)
Definition compression_failed (W : World) (args : Task) (file_data : bytes) (e : exn)
  : M.t unit :=
  (save W (output_path_in W args Failure) file_data ;;
   M.raise (Exception ("Compression failed: " ++ str e)))%proc.

(** Lines 112-113: the archive at [zip_path] is opened and the entry named
    [str(file_path)] is read from it. *)
Definition read_entry (W : World) (args : Task) : outcome bytes :=
  zip_read W (zip_path args) (path_str (file_path args)).

(** The body of the outer [try]: lines 111-163.  It yields [tt] both at the
    early [return result] of the scanned branch and at its end; in either
    case [process_file] then returns [result]. *)
Definition process_file_try (W : World) (args : Task) : M.t unit :=
  (file_data <- M.call (read_entry W args) ;;
   M.bind_file_data file_data ;;
   M.update (set_original_size (kb file_data)) ;;
   M.try_except
     (doc <- M.call (fitz_open W file_data) ;; M.ret tt)
     (fun e => M.raise (Exception ("Invalid PDF: " ++ str e))) ;;
   scanned <- M.call (is_scanned_pdf W file_data 3) ;;
   if scanned : bool then
     save W (output_path_in W args Scanned) file_data ;;
     M.update update_scanned
   else
     M.try_except (attempt_compression W args file_data)
                  (compression_failed W args file_data))%proc.

(** The handler of the outer [try]: lines 165-174. *)
Definition process_file_except (W : World) (args : Task) (e : exn) : M.t unit :=
  (M.update (update_failed e) ;;
   let output_path := output_path_in W args Failure in
   M.mkdir W (parent output_path) ;;
   data <- M.file_data_or_empty ;;
   M.write_bytes W output_path data)%proc.

Definition process_file_body (W : World) (args : Task) : M.t Res.t :=
  (M.try_except (process_file_try W args) (process_file_except W args) ;;
   M.get_result)%proc.

Definition initial_frame (W : World) (args : Task) : Frame :=
  mkFrame (initial_result W args) None [].

(** [process_file(args)]: what it returns or raises, and the file-system
    calls that returned during the run. *)
Definition process_file (W : World) (args : Task) : outcome Res.t * list io_event :=
  let (o, fr) := process_file_body W args (initial_frame W args) in
  (o, events fr).

(** ** Reading the trace *)

(** The [write_bytes] calls of a trace, in order. *)
Fixpoint writes (tr : list io_event) : list (Path * bytes) :=
  match tr with
  | [] => []
  | Mkdir _ :: rest => writes rest
  | WriteBytes p d :: rest => (p, d) :: writes rest
  end.


(** ** Statements about the classifier *)

(** A page that the loop of [is_scanned_pdf] passes: it loads, its text is
    empty once stripped, and it shows an image. *)
Definition page_looks_scanned (doc : Document) (page_num : nat) : Prop :=
  exists page page_text images,
    load_page doc page_num = Return page /\
    get_text page = Return page_text /\ strip page_text = [] /\
    get_images page = Return images /\ images <> [].

(** The same with the text empty as extracted. *)
Definition page_has_empty_text_and_image (doc : Document) (page_num : nat) : Prop :=
  exists page images,
    load_page doc page_num = Return page /\
    get_text page = Return [] /\
    get_images page = Return images /\ images <> [].

(** The pages [random.sample] picks among the [len(doc)] pages for a sample
    count [k]. *)
Definition sampled_pages (W : World) (doc : Document) (k : Z) : list nat :=
  random_sample W (page_count doc) (Z.to_nat (Z.min k (Z.of_nat (page_count doc)))).

(** ** Statements about [process_file] *)

(** PyMuPDF opens no empty stream. *)
Definition opens_only_nonempty (W : World) : Prop :=
  forall data doc, fitz_open W data = Return doc -> data <> [].

(** The file system refuses no [mkdir] and no [write_bytes]. *)
Definition accepts_writes (W : World) : Prop :=
  (forall tr p, fs_mkdir W tr p = None) /\
  (forall tr p data, fs_write_bytes W tr p data = None).

(** [p] lies below [dir] as far as the components tell: it has the anchor
    and the components of [dir], followed by components none of which
    steps back. *)
Definition lexically_below (dir p : Path) : Prop :=
  absolute p = absolute dir /\
  exists rest, parts p = parts dir ++ rest /\ ~ In ".." rest.

(** The [result] dictionary once the entry is read. *)
Definition result_after_read (W : World) (args : Task) (data : bytes) : Res.t :=
  set_original_size (kb data) (initial_result W args).

(** The frame in which the inner [try] starts. *)
Definition frame_at_compression (W : World) (args : Task) (data : bytes) : Frame :=
  mkFrame (result_after_read W args data) (Some data) [].


(** ** Sample worlds *)

(** The bytes [%PDF] and a stream that is no document. *)
Definition sample_pdf : bytes := [x25; x50; x44; x46].
Definition sample_garbage : bytes := [x6e; x6f].

Definition one_page_document (page : Page) : Document :=
  mkDocument 1 (fun n => if Nat.eqb n 0 then Return page
                         else Raise (ValueError "page not in document")).

(** A page of white space with one image, and a page of text. *)
Definition blank_image_page : Page := mkPage (Return [32%N; 10%N]) (Return [7]).
Definition text_page : Page := mkPage (Return [72%N; 105%N]) (Return []).

(** An archive [a.zip] holding [x.pdf] and [bad.pdf]; streams open when
    they start with a percent sign; Ghostscript ends as [gs] says. *)
Definition sample_world (doc : Document) (gs : PopenOutcome) : World :=
  mkWorld
    (fun _ => "a")
    (fun _ name =>
       if String.eqb name "x.pdf" then Return sample_pdf
       else if String.eqb name "bad.pdf" then Return sample_garbage
       else Raise (ForeignError "There is no item named 'y.pdf' in the archive"))
    (fun data =>
       match data with
       | x25 :: _ => Return doc
       | _ => Raise (ForeignError "Failed to open stream")
       end)
    (fun _ k => seq 0 k)
    (fun _ => gs)
    (fun _ => Return "stream fault")
    (fun _ _ => None)
    (fun _ _ _ => None).

Definition sample_task (name : string) : Task :=
  mkTask (mkPath true ["in"; "a.zip"]) (mkPath false [name])
         (mkPath true ["out"; "compressed"])
         (mkPath true ["out"; "scanned_images"])
         (mkPath true ["out"; "failure"]).

(** A document library that opens every stream, the empty one too, as a
    document without pages. *)
Definition lenient_world (gs : PopenOutcome) : World :=
  mkWorld
    (fun _ => "a")
    (fun _ _ => Return [])
    (fun _ => Return (mkDocument 0 (fun _ => Raise (ValueError "page not in document"))))
    (fun _ k => seq 0 k)
    (fun _ => gs)
    (fun _ => Return "stream fault")
    (fun _ _ => None)
    (fun _ _ _ => None).

(** An archive [a.zip] whose one entry is named with two dots and is no
    document, on a file system where [write_bytes] raises on every path
    that ends in two dots, a directory. *)
Definition directory_world : World :=
  mkWorld
    (fun _ => "a")
    (fun _ name =>
       if String.eqb name ".." then Return sample_garbage
       else Raise (ForeignError "There is no item named 'x.pdf' in the archive"))
    (fun _ => Raise (ForeignError "Failed to open stream"))
    (fun _ k => seq 0 k)
    (fun _ => PopenRaises (ForeignError "not started"))
    (fun _ => Return "stream fault")
    (fun _ _ => None)
    (fun _ p _ =>
       if String.eqb (last (parts p) "") ".."
       then Some ("[Errno 21] Is a directory: '" ++ path_str p ++ "'")%string
       else None).

Definition gs_fails : PopenOutcome := Completed 1 [] [x65].
Definition gs_shrinks : PopenOutcome := Completed 0 [x25] [].

(** ** [main] of scripts/process4.py *)

(** [sub in s] *)
Fixpoint py_in (sub s : string) : bool :=
  String.prefix sub s ||
  match s with
  | EmptyString => false
  | String _ rest => py_in sub rest
  end.

(** [s.split('/')] *)
Fixpoint split_slash (s : string) : list string :=
  match s with
  | EmptyString => [EmptyString]
  | String c rest =>
      if Ascii.eqb c "/" then EmptyString :: split_slash rest
      else match split_slash rest with
           | [] => [String c EmptyString]
           | word :: words => String c word :: words
           end
  end.

(** [Path(s)]: anchored when [s] starts with a slash; empty components and
    lone dots are dropped. *)
Definition path_of_str (s : string) : Path :=
  mkPath (String.prefix "/" s)
         (filter (fun part => negb (String.eqb part "" || String.eqb part "."))
                 (split_slash s)).

(** An entry of [zip_ref.infolist()]: [file_info.filename] and
    [file_info.is_dir()]. *)
Record ZipInfo := mkZipInfo { filename : string; is_dir : bool }.

Module Main.

(** Lines 188-192: the four directories below the output directory. *)
Definition compressed_dir (output_dir : Path) : Path :=
  joinpath output_dir (path_of_str "compressed").
Definition scanned_dir (output_dir : Path) : Path :=
  joinpath output_dir (path_of_str "scanned_images").
Definition failure_dir (output_dir : Path) : Path :=
  joinpath output_dir (path_of_str "failure").

(** Lines 201-212: the loop over the entries of one archive. *)
Fixpoint archive_tasks (output_dir zip_path : Path) (infolist : list ZipInfo)
  : list Task :=
  match infolist with
  | [] => []
  | file_info :: rest =>
      if is_dir file_info then archive_tasks output_dir zip_path rest
      else
        let file_path := path_of_str (filename file_info) in
        mkTask zip_path file_path (compressed_dir output_dir)
               (scanned_dir output_dir) (failure_dir output_dir)
        :: archive_tasks output_dir zip_path rest
  end.

(** Lines 198-212: the loop over the archives the glob found.  Opening an
    archive is not guarded: what [zipfile.ZipFile] or [infolist] raise
    leaves [main]. *)
Fixpoint collect_tasks (infolist : Path -> outcome (list ZipInfo))
         (output_dir : Path) (archives : list Path) : outcome (list Task) :=
  match archives with
  | [] => Return []
  | zip_path :: rest =>
      (entries <- infolist zip_path ;;
       task_args <- collect_tasks infolist output_dir rest ;;
       Return (archive_tasks output_dir zip_path entries ++ task_args))%exc
  end.

(** [logger.error] and [logger.info] *)
Inductive Level : Type := INFO | ERROR.

(** Lines 228-231: the level a result is logged at. *)
Definition log_level (result : Res.t) : Level :=
  if py_in "failed" (Res.status result) then ERROR else INFO.

(** Lines 218-226: the logged message; [format_2f] is the float format
    [:.2f]. *)
Definition log_msg (format_2f : Q -> string) (result : Res.t) : string :=
  let log_msg :=
    (Res.file_path result ++ " | " ++
     "Status: " ++ Res.status result ++ " | " ++
     "Original: " ++ format_2f (Res.original_size result) ++ "KB | " ++
     "Compressed: " ++ format_2f (Res.compressed_size result) ++ "KB | " ++
     "Ratio: " ++ format_2f (Res.compression_ratio result) ++ "%")%string in
  if String.eqb (Res.error result) "" then log_msg
  else (log_msg ++ " | Error: " ++ Res.error result)%string.

End Main.

(** ** [setup_logging] *)

Module Logging.











End Logging.

(** ** scripts/process5.py *)

Module P5.

(** [posixpath.dirname(p)]: [p] up to its last slash, without the trailing
    slashes unless nothing else is left. *)
Fixpoint drop_while (f : ascii -> bool) (l : list ascii) : list ascii :=
  match l with
  | [] => []
  | c :: rest => if f c then drop_while f rest else l
  end.

Definition is_slash (c : ascii) : bool := Ascii.eqb c "/".

Definition dirname (p : string) : string :=
  let head := rev (drop_while (fun c => negb (is_slash c)) (rev (list_ascii_of_string p))) in
  let head :=
    if truthy head && negb (forallb is_slash head)
    then rev (drop_while is_slash (rev head))
    else head in
  string_of_list_ascii head.

(** [posixpath.join(a, b)] *)
Definition join (a b : string) : string :=
  if String.prefix "/" b then b
  else if String.eqb a "" || is_slash (last (list_ascii_of_string a) "/"%char)
       then (a ++ b)%string
       else (a ++ "/" ++ b)%string.

(** [str.lower] on one character (code points below 256). *)
Definition lower_char (c : ascii) : ascii :=
  let n := nat_of_ascii c in
  if ((65 <=? n) && (n <=? 90) || (192 <=? n) && (n <=? 222) && negb (n =? 215))%nat
  then ascii_of_nat (n + 32)
  else c.

(** [s.lower()] *)
Fixpoint lower (s : string) : string :=
  match s with
  | EmptyString => EmptyString
  | String c rest => String (lower_char c) (lower rest)
  end.

(** [s.endswith(suffix)] *)
Definition endswith (s suffix : string) : bool :=
  (String.length suffix <=? String.length s)%nat &&
  String.eqb (substring (String.length s - String.length suffix)
                        (String.length suffix) s)
             suffix.

(** [str(n)] for an [int] *)
Definition str_int (n : Z) : string := NilZero.string_of_int (Z.to_int n).

(** What [subprocess.run(command, check=True, ...)] does: it raises
    [CalledProcessError] with the exit status and the captured diagnostic
    stream, raises something else, or returns. *)
Inductive RunOutcome : Type :=
| CalledProcessError (returncode : Z) (stderr : bytes)
| RunRaises (e : exn)
| RunCompleted.

(** The operating system as the script calls it.  [getsize_after_run] is
    [os.path.getsize] once Ghostscript has run. *)
Record OS := mkOS {
  walk : string -> list (string * list string * list string);
  makedirs : string -> outcome unit;
  getsize : string -> outcome Z;
  run : list string -> RunOutcome;
  getsize_after_run : string -> outcome Z;
  decode_utf8 : bytes -> outcome string
}.

(** The inner loop of [find_pdf_files]. *)
Fixpoint pdf_files_in (root : string) (files : list string) : list string :=
  match files with
  | [] => []
  | file :: rest =>
      if endswith (lower file) ".pdf" then join root file :: pdf_files_in root rest
      else pdf_files_in root rest
  end.

(** The outer loop of [find_pdf_files]. *)
Fixpoint pdf_files_of (tree : list (string * list string * list string))
  : list string :=
  match tree with
  | [] => []
  | (root, _, files) :: rest => pdf_files_in root files ++ pdf_files_of rest
  end.

Definition find_pdf_files (os : OS) (input_dir : string) : list string :=
  pdf_files_of (walk os input_dir).

(** The Ghostscript command line of [process_file]. *)
Definition command (input_path output_path : string) : list string :=
  ["/opt/ghostscript/bin/gs";
   "-sDEVICE=pdfwrite";
   "-dCompatibilityLevel=1.4";
   "-dPDFSETTINGS=/screen";
   "-dColorImageFilter=/DCTEncode";
   "-dGrayImageFilter=/DCTEncode";
   "-dColorImageDownsampleType=/Bicubic";
   "-dGrayImageDownsampleType=/Bicubic";
   "-dMonoImageDownsampleType=/Subsample";
   "-dColorImageResolution=108";
   "-dGrayImageResolution=108";
   "-dMonoImageResolution=108";
   "-dNOPAUSE";
   "-dQUIET";
   "-dBATCH";
   ("-sOutputFile=" ++ output_path)%string;
   input_path].

(** The ratio of [process_file]: a float, as the rational it denotes, or
    [float('inf')]. *)
Inductive Ratio : Type :=
| Finite (q : Q)
| Infinity.

(** The tuple [process_file] returns; [None] is [None]. *)
Record Row := mkRow {
  input_path : string;
  output_path : string;
  original_size : option Z;
  compressed_size : option Z;
  ratio : option Ratio;
  error_msg : option string
}.

(** The calls [process_file] makes that change the world, in order. *)
Inductive call : Type :=
| Makedirs (dir : string)
| Run (command : list string).

Definition process_file (os : OS) (input_path output_path : string)
  : outcome Row * list call :=
  let output_dir := dirname output_path in
  let command := command input_path output_path in
  match makedirs os output_dir with
  | Raise e => (Raise e, [Makedirs output_dir])
  | Return _ =>
      match getsize os input_path with
      | Raise e =>
          (Return (mkRow input_path output_path None None None
                         (Some ("Error getting original size: " ++ str e)%string)),
           [Makedirs output_dir])
      | Return original_size =>
          let calls := [Makedirs output_dir; Run command] in
          match run os command with
          | CalledProcessError returncode stderr =>
              match decode_utf8 os stderr with
              | Raise e => (Raise e, calls)
              | Return diagnostic =>
                  (Return (mkRow input_path output_path (Some original_size) None None
                             (Some ("Ghostscript error (" ++ str_int returncode ++ "): "
                                    ++ diagnostic)%string)),
                   calls)
              end
          | RunRaises e =>
              (Return (mkRow input_path output_path (Some original_size) None None
                         (Some ("Unexpected error: " ++ str e)%string)),
               calls)
          | RunCompleted =>
              match getsize_after_run os output_path with
              | Raise e =>
                  (Return (mkRow input_path output_path (Some original_size) None None
                             (Some ("Error getting compressed size: " ++ str e)%string)),
                   calls)
              | Return compressed_size =>
                  let ratio :=
                    if (0 <? original_size)%Z
                    then Finite (inject_Z compressed_size / inject_Z original_size)%Q
                    else Infinity in
                  (Return (mkRow input_path output_path (Some original_size)
                                 (Some compressed_size) (Some ratio) None),
                   calls)
              end
          end
      end
  end.

End P5.

(** A file name that ends in [.pdf], in any letter case. *)
Definition has_pdf_suffix (file : string) : Prop :=
  exists stem p d f,
    file = (stem ++ String "." (String p (String d (String f EmptyString))))%string /\
    (p = "p" \/ p = "P")%char /\ (d = "d" \/ d = "D")%char /\ (f = "f" \/ f = "F")%char.

(** A sample operating system: a tree with two PDF files, where
    Ghostscript turns 4000 bytes into 1000. *)
Definition p5_sample_os : P5.OS :=
  P5.mkOS (fun _ => [("in", ["sub"], ["a.PDF"; "notes.txt"]); ("in/sub", [], ["b.pdf"])])
          (fun _ => Return tt)
          (fun _ => Return 4000%Z)
          (fun _ => P5.RunCompleted)
          (fun _ => Return 1000%Z)
          (fun _ => Return "diagnostic").

(** * Properties *)

(** ** White space *)

Lemma lstrip_nil_iff (s : text) :
  lstrip s = [] <-> forallb py_isspace s = true.
Proof.
  induction s as [|c rest IH]; simpl.
  - tauto.
  - destruct (py_isspace c); simpl.
    + exact IH.
    + split; discriminate.
Qed.

Lemma forallb_rev {A} (f : A -> bool) (l : list A) :
  forallb f (rev l) = forallb f l.
Proof.
  induction l as [|a l IH]; simpl; [reflexivity|].
  rewrite forallb_app, IH. simpl. rewrite andb_true_r. apply andb_comm.
Qed.

Lemma lstrip_forallb (s : text) :
  forallb py_isspace (lstrip s) = forallb py_isspace s.
Proof.
  induction s as [|c rest IH]; simpl; [reflexivity|].
  destruct (py_isspace c) eqn:E; simpl.
  - exact IH.
  - rewrite E. reflexivity.
Qed.

(** [s.strip()] is empty exactly when [s] holds white space only. *)
Lemma strip_nil_iff (s : text) :
  strip s = [] <-> forallb py_isspace s = true.
Proof.
  unfold strip, rstrip.
  rewrite <- (lstrip_forallb s), <- (forallb_rev py_isspace (lstrip s)).
  rewrite <- lstrip_nil_iff.
  split; intros H.
  - apply (f_equal (@rev N)) in H. rewrite rev_involutive in H. exact H.
  - rewrite H. reflexivity.
Qed.

Lemma truthy_false_iff {A} (l : list A) : truthy l = false <-> l = [].
Proof. destruct l; simpl; split; congruence. Qed.

(** ** The classifier *)

Lemma check_pages_true_iff (doc : Document) (sample_pages : list nat) :
  check_pages doc sample_pages = Return true <->
  Forall (page_looks_scanned doc) sample_pages.
Proof.
  induction sample_pages as [|n rest IH]; simpl.
  - split; [constructor | reflexivity].
  - split.
    + intros H.
      destruct (load_page doc n) as [page|e] eqn:Hload; simpl in H; [|discriminate].
      destruct (get_text page) as [page_text|e] eqn:Htext; simpl in H; [|discriminate].
      destruct (truthy (strip page_text)) eqn:Hstrip; [discriminate|].
      destruct (get_images page) as [images|e] eqn:Himg; simpl in H; [|discriminate].
      destruct (truthy images) eqn:Htruthy; simpl in H; [|discriminate].
      constructor.
      * exists page, page_text, images.
        repeat split; try assumption.
        -- apply truthy_false_iff. exact Hstrip.
        -- intros ->. discriminate.
      * apply IH. exact H.
    + intros H. inversion H as [|? ? Hpage Hrest]; subst.
      destruct Hpage as (page & page_text & images & Hload & Htext & Hstrip & Himg & Hne).
      rewrite Hload. simpl. rewrite Htext. simpl. rewrite Hstrip. simpl.
      rewrite Himg. simpl.
      destruct images as [|i images]; [contradiction|]. simpl.
      apply IH. exact Hrest.
Qed.

(** The [try ... except Exception: return False] of [is_scanned_pdf] leaves
    no way to raise. *)
Lemma is_scanned_pdf_returns (W : World) (pdf_data : bytes) (k : Z) :
  exists b, is_scanned_pdf W pdf_data k = Return b.
Proof.
  unfold is_scanned_pdf.
  match goal with
  | |- exists b, Exc.try_except ?m _ = _ => destruct m as [b|e]
  end; simpl; eauto.
Qed.

Lemma is_scanned_pdf_true_iff (W : World) (pdf_data : bytes) (k : Z) :
  is_scanned_pdf W pdf_data k = Return true <->
  exists doc,
    fitz_open W pdf_data = Return doc /\ 0 < page_count doc /\ (0 <= k)%Z /\
    Forall (page_looks_scanned doc) (sampled_pages W doc k).
Proof.
  unfold is_scanned_pdf, sampled_pages, py_random_sample. split.
  - intros H.
    destruct (fitz_open W pdf_data) as [doc|e]; simpl in H; [|discriminate].
    exists doc.
    destruct (Nat.eqb_spec (page_count doc) 0) as [E|E]; simpl in H; [discriminate|].
    destruct ((Z.min k (Z.of_nat (page_count doc)) <? 0)%Z
              || (Z.of_nat (page_count doc) <? Z.min k (Z.of_nat (page_count doc)))%Z)
      eqn:Hrange; simpl in H; [discriminate|].
    apply orb_false_iff in Hrange. destruct Hrange as [Hneg _].
    apply Z.ltb_ge in Hneg.
    repeat split; [lia | lia |].
    apply check_pages_true_iff.
    destruct (check_pages doc _) as [b|e]; simpl in H; congruence.
  - intros (doc & Hopen & Hpages & Hk & Hall).
    rewrite Hopen. simpl.
    destruct (Nat.eqb_spec (page_count doc) 0) as [E|E]; [lia|].
    replace ((Z.min k (Z.of_nat (page_count doc)) <? 0)%Z
             || (Z.of_nat (page_count doc) <? Z.min k (Z.of_nat (page_count doc)))%Z)
      with false.
    + simpl. apply check_pages_true_iff in Hall. rewrite Hall. reflexivity.
    + symmetry. apply orb_false_iff. split; apply Z.ltb_ge; lia.
Qed.

(** C2, as the code has it: [is_scanned_pdf] always returns a boolean and
    never raises; it returns [True] exactly when the bytes open as a
    document with at least one page, the sample count is not negative, and
    every sampled page loads, has text that is empty once white space is
    stripped, and shows at least one image.  In every other case (no page,
    text left after stripping, no image, any error raised while opening or
    sampling) it returns [False]. *)
Theorem is_scanned_pdf_characterised (W : World) (pdf_data : bytes) (k : Z) :
  (exists b, is_scanned_pdf W pdf_data k = Return b) /\
  (is_scanned_pdf W pdf_data k = Return true <->
   exists doc,
     fitz_open W pdf_data = Return doc /\ 0 < page_count doc /\ (0 <= k)%Z /\
     Forall (page_looks_scanned doc) (sampled_pages W doc k)) /\
  (is_scanned_pdf W pdf_data k = Return false <->
   ~ exists doc,
       fitz_open W pdf_data = Return doc /\ 0 < page_count doc /\ (0 <= k)%Z /\
       Forall (page_looks_scanned doc) (sampled_pages W doc k)).
Proof.
  pose proof (is_scanned_pdf_returns W pdf_data k) as [b Hb].
  pose proof (is_scanned_pdf_true_iff W pdf_data k) as Htrue.
  split; [exists b; exact Hb|]. split; [exact Htrue|].
  rewrite <- Htrue, Hb. destruct b; split; intros H; congruence.
Qed.

(** C2 as stated fails: a one-page document whose page holds a space and a
    line feed, and one image, is classified as scanned although the text of
    its sampled page is not empty. *)
Lemma is_scanned_pdf_whitespace_page :
  let W := sample_world (one_page_document blank_image_page) gs_fails in
  is_scanned_pdf W sample_pdf 3 = Return true /\
  (exists page, load_page (one_page_document blank_image_page) 0 = Return page /\
                get_text page = Return [32%N; 10%N]) /\
  ~ (exists doc,
       fitz_open W sample_pdf = Return doc /\ 0 < page_count doc /\
       Forall (page_has_empty_text_and_image doc) (sampled_pages W doc 3)).
Proof.
  simpl. split; [reflexivity|]. split.
  - exists blank_image_page. split; reflexivity.
  - intros (doc & Hopen & _ & Hall).
    injection Hopen as <-.
    unfold sampled_pages in Hall. simpl in Hall.
    inversion Hall as [|? ? Hpage _]; subst.
    destruct Hpage as (page & images & Hload & Htext & _).
    simpl in Hload. injection Hload as <-.
    simpl in Htext. discriminate.
Qed.

(** ** Sizes *)

Lemma Qlt_bool_iff (a b : Q) : Qlt_bool a b = true <-> (a < b)%Q.
Proof.
  unfold Qlt_bool. rewrite negb_true_iff.
  split; intros H.
  - apply Qnot_le_lt. intros Hle. apply Qle_bool_iff in Hle. congruence.
  - destruct (Qle_bool b a) eqn:E; [|reflexivity].
    apply Qle_bool_iff in E. exfalso. exact (Qlt_not_le _ _ H E).
Qed.

Lemma Qlt_bool_false_iff (a b : Q) : Qlt_bool a b = false <-> (b <= a)%Q.
Proof.
  unfold Qlt_bool. rewrite negb_false_iff. apply Qle_bool_iff.
Qed.

Lemma kb_lt_iff (c d : bytes) :
  (kb c < kb d)%Q <-> List.length c < List.length d.
Proof.
  unfold kb, Qlt, Qdiv, Qmult, Qinv, inject_Z. simpl. lia.
Qed.

Lemma kb_le_iff (c d : bytes) :
  (kb c <= kb d)%Q <-> List.length c <= List.length d.
Proof.
  unfold kb, Qle, Qdiv, Qmult, Qinv, inject_Z. simpl. lia.
Qed.

Lemma kb_nonneg (d : bytes) : (0 <= kb d)%Q.
Proof.
  unfold kb, Qle, Qdiv, Qmult, Qinv, inject_Z. simpl. lia.
Qed.

Lemma kb_zero_iff (d : bytes) : Qeq_bool (kb d) 0 = true <-> d = [].
Proof.
  rewrite Qeq_bool_iff.
  unfold kb, Qeq, Qdiv, Qmult, Qinv, inject_Z. simpl.
  destruct d; simpl; split; intros H; try reflexivity; try discriminate; lia.
Qed.

Lemma kb_positive (d : bytes) : d <> [] -> (0 < kb d)%Q.
Proof.
  intros H. unfold kb, Qlt, Qdiv, Qmult, Qinv, inject_Z. simpl.
  destruct d; [contradiction|]. simpl. lia.
Qed.

Lemma py_truediv_returns (a b : Q) :
  (0 < b)%Q -> py_truediv a b = Return (a / b)%Q.
Proof.
  intros H. unfold py_truediv.
  destruct (Qeq_bool b 0) eqn:E; [|reflexivity].
  apply Qeq_bool_iff in E. rewrite E in H. exfalso. exact (Qlt_irrefl _ H).
Qed.

(** ** The runs of [process_file] on a file system that accepts the writes *)

Ltac unfold_run :=
  unfold process_file, process_file_body, process_file_try, process_file_except,
    attempt_compression, compression_failed, save, initial_frame,
    M.bind, M.try_except, M.call, M.ret, M.raise, M.get_result, M.update,
    M.bind_file_data, M.file_data_or_empty, M.mkdir, M.write_bytes, M.emit.

(** Rewrites the next call of a run with what the context says it gives. *)
Ltac step_run :=
  match goal with
  | H : read_entry _ _ = _ |- _ => rewrite H
  | H : fitz_open _ _ = _ |- _ => rewrite H
  | H : is_scanned_pdf _ _ _ = _ |- _ => rewrite H
  | H : compress_pdf_in_memory _ _ = _ |- _ => rewrite H
  | H : Qlt_bool _ _ = _ |- _ => rewrite H
  | H : py_truediv _ _ = _ |- _ => rewrite H
  | H : accepts_writes _ |- _ => first [rewrite (proj1 H) | rewrite (proj2 H)]
  end.

Ltac run := unfold_run; repeat (step_run; simpl).

Section Runs.
Variable W : World.
Variable args : Task.
Hypothesis Hfs : accepts_writes W.

(** The entry cannot be read. *)
Lemma run_read_failure (e : exn) :
  read_entry W args = Raise e ->
  process_file W args =
    (Return (update_failed e (initial_result W args)),
     [Mkdir (parent (output_path_in W args Failure));
      WriteBytes (output_path_in W args Failure) []]).
Proof.
  intros H. run. reflexivity.
Qed.

(** The entry is read and does not open as a document. *)
Lemma run_validation_failure (data : bytes) (e : exn) :
  read_entry W args = Return data ->
  fitz_open W data = Raise e ->
  process_file W args =
    (Return (update_failed (Exception ("Invalid PDF: " ++ str e))
                           (result_after_read W args data)),
     [Mkdir (parent (output_path_in W args Failure));
      WriteBytes (output_path_in W args Failure) data]).
Proof.
  intros H Hopen. run. reflexivity.
Qed.

(** The document is classified as scanned. *)
Lemma run_scanned (data : bytes) (doc : Document) :
  read_entry W args = Return data ->
  fitz_open W data = Return doc ->
  is_scanned_pdf W data 3 = Return true ->
  process_file W args =
    (Return (update_scanned (result_after_read W args data)),
     [Mkdir (parent (output_path_in W args Scanned));
      WriteBytes (output_path_in W args Scanned) data]).
Proof.
  intros H Hopen Hscan. run. reflexivity.
Qed.

(** The compressor raises. *)
Lemma run_compression_failure (data : bytes) (doc : Document) (e : exn) :
  read_entry W args = Return data ->
  fitz_open W data = Return doc ->
  is_scanned_pdf W data 3 = Return false ->
  compress_pdf_in_memory W data = Raise e ->
  process_file W args =
    (Return (update_failed (Exception ("Compression failed: " ++ str e))
                           (result_after_read W args data)),
     [Mkdir (parent (output_path_in W args Failure));
      WriteBytes (output_path_in W args Failure) data;
      Mkdir (parent (output_path_in W args Failure));
      WriteBytes (output_path_in W args Failure) data]).
Proof.
  intros H Hopen Hscan Hgs. run. reflexivity.
Qed.

(** The compressor returns fewer bytes than it was given. *)
Lemma run_compressed (data cdata : bytes) (doc : Document) :
  read_entry W args = Return data ->
  fitz_open W data = Return doc ->
  is_scanned_pdf W data 3 = Return false ->
  compress_pdf_in_memory W data = Return cdata ->
  (kb cdata < kb data)%Q ->
  process_file W args =
    (Return (update_compressed "success (compressed)" (kb cdata)
               ((kb data - kb cdata) / kb data * 100)%Q
               (result_after_read W args data)),
     [Mkdir (parent (output_path_in W args Compressed));
      WriteBytes (output_path_in W args Compressed) cdata]).
Proof.
  intros H Hopen Hscan Hgs Hlt.
  assert (Hpos : (0 < kb data)%Q)
    by (eapply Qle_lt_trans; [apply (kb_nonneg cdata) | exact Hlt]).
  pose proof (proj2 (Qlt_bool_iff _ _) Hlt) as Hcmp.
  pose proof (py_truediv_returns (kb data - kb cdata) _ Hpos) as Hdiv.
  run. reflexivity.
Qed.

(** The compressor returns at least as many bytes as it was given, and the
    entry is not empty. *)
Lemma run_uncompressed (data cdata : bytes) (doc : Document) :
  read_entry W args = Return data ->
  fitz_open W data = Return doc ->
  is_scanned_pdf W data 3 = Return false ->
  compress_pdf_in_memory W data = Return cdata ->
  (kb data <= kb cdata)%Q ->
  data <> [] ->
  process_file W args =
    (Return (update_compressed "success (uncompressed (larger size))" (kb data)
               ((kb data - kb data) / kb data * 100)%Q
               (result_after_read W args data)),
     [Mkdir (parent (output_path_in W args Compressed));
      WriteBytes (output_path_in W args Compressed) data]).
Proof.
  intros H Hopen Hscan Hgs Hle Hne.
  pose proof (proj2 (Qlt_bool_false_iff _ _) Hle) as Hcmp.
  pose proof (py_truediv_returns (kb data - kb data) _ (kb_positive data Hne)) as Hdiv.
  run. reflexivity.
Qed.

(** The compressor returns, the entry is empty and yet opens: the ratio
    divides by zero after the write to the compressed bucket, and both
    handlers run. *)
Lemma run_empty_document (cdata : bytes) (doc : Document) :
  read_entry W args = Return [] ->
  fitz_open W [] = Return doc ->
  is_scanned_pdf W [] 3 = Return false ->
  compress_pdf_in_memory W [] = Return cdata ->
  process_file W args =
    (Return (update_failed
               (Exception "Compression failed: float division by zero")
               (result_after_read W args [])),
     [Mkdir (parent (output_path_in W args Compressed));
      WriteBytes (output_path_in W args Compressed) [];
      Mkdir (parent (output_path_in W args Failure));
      WriteBytes (output_path_in W args Failure) [];
      Mkdir (parent (output_path_in W args Failure));
      WriteBytes (output_path_in W args Failure) []]).
Proof.
  intros H Hopen Hscan Hgs.
  pose proof (proj2 (Qlt_bool_false_iff (kb cdata) (kb []))
                (proj2 (kb_le_iff [] cdata) (Nat.le_0_l _))) as Hcmp.
  run. reflexivity.
Qed.

End Runs.

(** ** Paths and traces *)

(** With a relative entry path, the output path lies below the bucket
    directory: bucket, then the archive name, then the entry path. *)
Lemma output_path_below_bucket (W : World) (args : Task) (b : Bucket) :
  absolute (file_path args) = false ->
  absolute (output_path_in W args b) = absolute (bucket_dir args b) /\
  parts (output_path_in W args b) =
    parts (bucket_dir args b) ++ parts (path_of_name (stem W (zip_path args)))
      ++ parts (file_path args).
Proof.
  intros Hrel. unfold output_path_in, joinpath, path_of_name. rewrite Hrel.
  simpl. rewrite <- app_assoc. split; reflexivity.
Qed.

(** With a relative entry path that never steps back, under an archive name
    that does not either, the output path lies below the bucket
    directory. *)
Lemma output_path_lexically_below (W : World) (args : Task) (b : Bucket) :
  absolute (file_path args) = false ->
  ~ In ".." (parts (file_path args)) ->
  stem W (zip_path args) <> ".." ->
  lexically_below (bucket_dir args b) (output_path_in W args b).
Proof.
  intros Hrel Hentry Hname.
  destruct (output_path_below_bucket W args b Hrel) as [Habs Hparts].
  split; [exact Habs|].
  exists (parts (path_of_name (stem W (zip_path args))) ++ parts (file_path args)).
  split; [exact Hparts|].
  intros Hin. apply in_app_or in Hin. destruct Hin as [Hin|Hin]; [|contradiction].
  unfold path_of_name in Hin. simpl in Hin.
  destruct (String.eqb (stem W (zip_path args)) ""
            || String.eqb (stem W (zip_path args)) "."); simpl in Hin.
  - contradiction.
  - destruct Hin as [Heq|[]]. congruence.
Qed.




(** What [compress_pdf_in_memory] raises is an [Exception] whose message
    starts with [Compression failed: ]. *)
Lemma compress_pdf_in_memory_raises (W : World) (data : bytes) (e : exn) :
  compress_pdf_in_memory W data = Raise e ->
  exists cause, e = Exception ("Compression failed: " ++ cause).
Proof.
  unfold compress_pdf_in_memory.
  destruct (ghostscript W data) as [e0|rc out err]; simpl.
  - intros [= <-]. eauto.
  - destruct (rc =? 0)%Z; simpl; [discriminate|].
    destruct (decode W err) as [diagnostic|e0]; simpl; intros [= <-]; eauto.
Qed.

Lemma sample_world_opens_only_nonempty (doc : Document) (gs : PopenOutcome) :
  opens_only_nonempty (sample_world doc gs).
Proof.
  intros data d H ->. discriminate.
Qed.



(** ** The terminal outcomes *)













(** ** Every run *)

(** On a file system that accepts the writes [process_file] returns:
    either a success without error text, or the status and error of the
    exception that was caught. *)
Lemma process_file_returns (W : World) (args : Task) :
  accepts_writes W ->
  exists r,
    fst (process_file W args) = Return r /\
    ((Res.error r = "" /\
      (Res.status r = "success (scanned)" \/
       Res.status r = "success (compressed)" \/
       Res.status r = "success (uncompressed (larger size))")) \/
     (exists e, Res.status r = ("failed: " ++ str e)%string /\ Res.error r = str e)).
Proof.
  intros Hfs.
  destruct (read_entry W args) as [data|e] eqn:Hread.
  2:{ rewrite (run_read_failure W args Hfs e Hread).
      eexists. split; [reflexivity|]. right. exists e. split; reflexivity. }
  destruct (fitz_open W data) as [doc|e] eqn:Hopen.
  2:{ rewrite (run_validation_failure W args Hfs data e Hread Hopen).
      eexists. split; [reflexivity|]. right. eexists. split; reflexivity. }
  destruct (is_scanned_pdf_returns W data 3) as [[|] Hscan].
  { rewrite (run_scanned W args Hfs data doc Hread Hopen Hscan).
    eexists. split; [reflexivity|]. left. split; [reflexivity|]. left. reflexivity. }
  destruct (compress_pdf_in_memory W data) as [cdata|e] eqn:Hgs.
  2:{ rewrite (run_compression_failure W args Hfs data doc e Hread Hopen Hscan Hgs).
      eexists. split; [reflexivity|]. right. eexists. split; reflexivity. }
  destruct (Qlt_le_dec (kb cdata) (kb data)) as [Hlt|Hle].
  { rewrite (run_compressed W args Hfs data cdata doc Hread Hopen Hscan Hgs Hlt).
    eexists. split; [reflexivity|]. left. split; [reflexivity|].
    right. left. reflexivity. }
  destruct data as [|c data].
  - rewrite (run_empty_document W args Hfs cdata doc Hread Hopen Hscan Hgs).
    eexists. split; [reflexivity|]. right. eexists. split; reflexivity.
  - rewrite (run_uncompressed W args Hfs (c :: data) cdata doc
               Hread Hopen Hscan Hgs Hle)
      by discriminate.
    eexists. split; [reflexivity|]. left. split; [reflexivity|].
    right. right. reflexivity.
Qed.

(** Splits a goal about [process_file W args] into all the runs there are,
    by what each call of the run gives: the reader, the document library,
    the classifier, the compressor, the comparison and the division, and
    every [mkdir] and [write_bytes]. *)
Ltac all_runs :=
  unfold_run; unfold py_truediv;
  repeat (simpl;
          match goal with
          | |- context [if ?b then _ else _] => destruct b eqn:?
          | |- context [match ?x with Return _ => _ | Raise _ => _ end] =>
              destruct x eqn:?
          | |- context [match ?x with Some _ => _ | None => _ end] =>
              destruct x eqn:?
          end);
  simpl.

(** What leaves [process_file] is an error of the file system raised by the
    [mkdir] or the [write_bytes] of the failure path: every other
    exception is caught. *)
Lemma process_file_raises_only_from_handler (W : World) (args : Task) (e : exn) :
  fst (process_file W args) = Raise e ->
  exists tr data msg,
    e = ForeignError msg /\
    (fs_mkdir W tr (parent (output_path_in W args Failure)) = Some msg \/
     fs_write_bytes W tr (output_path_in W args Failure) data = Some msg).
Proof.
  all_runs; intros He; try discriminate He; injection He as <-;
    match goal with
    | H : fs_mkdir W ?tr _ = Some ?msg |- _ =>
        exists tr, [], msg; split; [reflexivity | left; exact H]
    | H : fs_write_bytes W ?tr _ ?d = Some ?msg |- _ =>
        exists tr, d, msg; split; [reflexivity | right; exact H]
    end.
Qed.

(** C9 fails on the code: the [mkdir] and the [write_bytes] of the outer
    handler (lines 173-174) are outside every [try], so what they raise
    leaves [process_file].  Here the archive holds an entry named with two
    dots that is no document: validation fails, the handler creates
    [failure/a] and then writes to [failure/a/..], a directory, and the
    [OSError] of that write is raised to the caller. *)
Theorem handler_write_error_escapes :
  read_entry directory_world (sample_task "..") = Return sample_garbage /\
  process_file directory_world (sample_task "..") =
    (Raise (ForeignError "[Errno 21] Is a directory: '/out/failure/a/..'"),
     [Mkdir (mkPath true ["out"; "failure"; "a"])]).
Proof. split; reflexivity. Qed.





(** The condition on the components is needed: an entry path that steps
    back twice takes the file out of the bucket, here to [/out/logs/a.log]
    once the path is resolved. *)
Example dotdot_entry_leaves_bucket :
  let W := sample_world (one_page_document text_page) gs_shrinks in
  let args := mkTask (mkPath true ["in"; "a.zip"])
                     (mkPath false [".."; ".."; "logs"; "a.log"])
                     (mkPath true ["out"; "compressed"])
                     (mkPath true ["out"; "scanned_images"])
                     (mkPath true ["out"; "failure"]) in
  writes (snd (process_file W args)) =
    [(mkPath true ["out"; "failure"; "a"; ".."; ".."; "logs"; "a.log"], [])] /\
  ~ lexically_below (bucket_dir args Failure) (output_path_in W args Failure).
Proof.
  simpl. split; [reflexivity|].
  intros (_ & rest & Hparts & Hnot). simpl in Hparts.
  injection Hparts as <-. apply Hnot. simpl. auto.
Qed.

(** ** The division *)

(** C10: provided a stream that validates is not empty, the division by
    [original_size] never divides by zero.  The inner [try] is entered
    only after the entry has been read and has validated, with
    [original_size] holding the size of that entry, which is positive; so
    the body of the inner [try] raises no [ZeroDivisionError]. *)
Theorem ratio_never_divides_by_zero (W : World) (args : Task) (data : bytes)
        (doc : Document) :
  opens_only_nonempty W ->
  read_entry W args = Return data ->
  fitz_open W data = Return doc ->
  is_scanned_pdf W data 3 = Return false ->
  process_file_try W args (initial_frame W args) =
    M.try_except (attempt_compression W args data) (compression_failed W args data)
                 (frame_at_compression W args data) /\
  (0 < Res.original_size (result (frame_at_compression W args data)))%Q /\
  (forall save_data,
     py_truediv (Res.original_size (result (frame_at_compression W args data))
                 - kb save_data)
                (Res.original_size (result (frame_at_compression W args data)))
     = Return ((kb data - kb save_data) / kb data)%Q) /\
  (forall msg,
     fst (attempt_compression W args data (frame_at_compression W args data))
     <> Raise (ZeroDivisionError msg)).
Proof.
  intros Hlib Hread Hopen Hscan.
  pose proof (kb_positive data (Hlib data doc Hopen)) as Hpos.
  split; [|split; [exact Hpos|split]].
  - unfold process_file_try, initial_frame, frame_at_compression, result_after_read,
      M.bind, M.call, M.bind_file_data, M.update, M.try_except at 1, M.ret.
    rewrite Hread. simpl. rewrite Hopen, Hscan. reflexivity.
  - intros save_data. simpl. apply py_truediv_returns. exact Hpos.
  - intros msg.
    unfold attempt_compression, frame_at_compression, result_after_read, save,
      M.bind, M.call, M.get_result, M.update, M.mkdir, M.write_bytes, M.emit.
    destruct (compress_pdf_in_memory W data) as [cdata|e] eqn:Hgs; simpl.
    + destruct (Qlt_bool (kb cdata) (kb data)); simpl;
        (destruct (fs_mkdir W [] _); simpl; [discriminate|]);
        (destruct (fs_write_bytes W _ _ _); simpl; [discriminate|]);
        rewrite (py_truediv_returns _ _ Hpos); simpl; discriminate.
    + destruct (compress_pdf_in_memory_raises W data e Hgs) as [cause ->].
      discriminate.
Qed.

Lemma ratio_never_divides_by_zero_witness :
  let W := sample_world (one_page_document text_page) gs_shrinks in
  (0 < Res.original_size (result (frame_at_compression W (sample_task "x.pdf") sample_pdf)))%Q /\
  (forall msg,
     fst (attempt_compression W (sample_task "x.pdf") sample_pdf
            (frame_at_compression W (sample_task "x.pdf") sample_pdf))
     <> Raise (ZeroDivisionError msg)).
Proof.
  destruct (ratio_never_divides_by_zero
              (sample_world (one_page_document text_page) gs_shrinks)
              (sample_task "x.pdf") sample_pdf (one_page_document text_page)
              (sample_world_opens_only_nonempty _ _) eq_refl eq_refl eq_refl)
    as (_ & Hpos & _ & Hdiv).
  split; assumption.
Defined.

(** Without that proviso the division is reachable: where the library opens
    the empty stream, an empty entry is written to the compressed bucket,
    the ratio divides by zero, and both handlers then write to the failure
    bucket. *)
Example empty_entry_divides_by_zero :
  process_file (lenient_world gs_shrinks) (sample_task "x.pdf") =
    (Return (Res.mk "a" "x.pdf"
               "failed: Compression failed: float division by zero"
               (kb []) (kb []) 0
               "Compression failed: float division by zero"),
     [Mkdir (mkPath true ["out"; "compressed"; "a"]);
      WriteBytes (mkPath true ["out"; "compressed"; "a"; "x.pdf"]) [];
      Mkdir (mkPath true ["out"; "failure"; "a"]);
      WriteBytes (mkPath true ["out"; "failure"; "a"; "x.pdf"]) [];
      Mkdir (mkPath true ["out"; "failure"; "a"]);
      WriteBytes (mkPath true ["out"; "failure"; "a"; "x.pdf"]) []]).
Proof. reflexivity. Qed.

(** * Further properties *)

(** ** [compress_pdf_in_memory] *)

(** X1: [compress_pdf_in_memory] returns exactly when the Ghostscript
    process completes with exit status 0, and then it returns the captured
    standard output unchanged. *)
Theorem compress_pdf_in_memory_returns_iff (W : World) (pdf_data compressed : bytes) :
  compress_pdf_in_memory W pdf_data = Return compressed <->
  exists stderr, ghostscript W pdf_data = Completed 0 compressed stderr.
Proof.
  unfold compress_pdf_in_memory. split.
  - destruct (ghostscript W pdf_data) as [e|rc out err]; simpl; [discriminate|].
    destruct (Z.eqb_spec rc 0) as [->|Hrc]; simpl.
    + intros [= ->]. exists err. reflexivity.
    + destruct (decode W err); simpl; discriminate.
  - intros [err ->]. reflexivity.
Qed.





(** ** Every run of [process_file] *)

Lemma kb_positive_of_nonzero (d : bytes) : Qeq_bool (kb d) 0 = false -> (0 < kb d)%Q.
Proof.
  intros H. apply kb_positive. intros ->.
  assert (Hz : Qeq_bool (kb []) 0 = true) by (apply kb_zero_iff; reflexivity).
  congruence.
Qed.

(** X4: the result of every run that returns names the archive and the
    entry of its task; [original_size] is the size of the entry when the
    entry was read and 0 otherwise; and a result whose status starts with
    [failed] has [compressed_size = original_size] and a ratio of 0.  On a
    file system that accepts the writes every run returns. *)
Theorem process_file_result_invariants (W : World) (args : Task) :
  (accepts_writes W -> exists r, fst (process_file W args) = Return r) /\
  forall r,
    fst (process_file W args) = Return r ->
    Res.zip_name r = stem W (zip_path args) /\
    Res.file_path r = path_str (file_path args) /\
    Res.original_size r =
      match read_entry W args with
      | Return data => kb data
      | Raise _ => 0%Q
      end /\
    (String.prefix "failed" (Res.status r) = true ->
     Res.compressed_size r = Res.original_size r /\ Res.compression_ratio r = 0%Q).
Proof.
  split.
  - intros Hfs. destruct (process_file_returns W args Hfs) as (r & Hr & _). eauto.
  - all_runs; intros r Hr; try discriminate Hr; injection Hr as <-; simpl;
      repeat split; try reflexivity; discriminate.
Qed.

Lemma ratio_in_range (o c : Q) :
  (0 <= c)%Q -> (c <= o)%Q -> (0 < o)%Q ->
  (0 <= (o - c) / o * 100 <= 100)%Q.
Proof.
  intros Hc Hco Ho.
  assert (Hlow : (0 <= (o - c) / o)%Q)
    by (apply Qle_shift_div_l; [exact Ho | lra]).
  assert (Hhigh : ((o - c) / o <= 1)%Q)
    by (apply Qle_shift_div_r; [exact Ho | lra]).
  split; lra.
Qed.

(** X5: the compression ratio of every result lies between 0 and 100; on
    a file system that accepts the writes every run returns a result. *)
Theorem compression_ratio_bounds (W : World) (args : Task) :
  (accepts_writes W -> exists r, fst (process_file W args) = Return r) /\
  forall r,
    fst (process_file W args) = Return r ->
    (0 <= Res.compression_ratio r <= 100)%Q.
Proof.
  split.
  - intros Hfs. destruct (process_file_returns W args Hfs) as (r & Hr & _). eauto.
  - all_runs; intros r Hr; try discriminate Hr; injection Hr as <-; simpl;
      try (split; discriminate).
    + apply ratio_in_range.
      * apply kb_nonneg.
      * apply Qlt_le_weak. apply Qlt_bool_iff. assumption.
      * apply kb_positive_of_nonzero. assumption.
    + apply ratio_in_range.
      * apply kb_nonneg.
      * apply Qle_refl.
      * apply kb_positive_of_nonzero. assumption.
Qed.

(** X6: [process_file] never writes more bytes than the entry holds: every
    file it writes is at most as long as the entry it read, and empty when
    the entry could not be read. *)
Theorem process_file_never_grows (W : World) (args : Task) (p : Path) (d : bytes) :
  In (p, d) (writes (snd (process_file W args))) ->
  List.length d <=
    match read_entry W args with
    | Return data => List.length data
    | Raise _ => 0
    end.
Proof.
  all_runs; intros Hin;
    repeat (destruct Hin as [[= <- <-]|Hin]; [simpl; try lia|]);
    try contradiction;
    match goal with
    | H : Qlt_bool _ _ = true |- _ =>
        apply Qlt_bool_iff in H; apply kb_lt_iff in H; lia
    end.
Qed.

Lemma process_file_never_grows_witness :
  let W := sample_world (one_page_document text_page) gs_shrinks in
  In (mkPath true ["out"; "compressed"; "a"; "x.pdf"], [x25])
     (writes (snd (process_file W (sample_task "x.pdf")))) /\
  List.length [x25] <= List.length sample_pdf.
Proof.
  split; [left; reflexivity|].
  exact (process_file_never_grows
           (sample_world (one_page_document text_page) gs_shrinks)
           (sample_task "x.pdf")
           (mkPath true ["out"; "compressed"; "a"; "x.pdf"]) [x25]
           (or_introl eq_refl)).
Defined.

(** Every write of [process_file] goes to the output path in one of the
    three buckets. *)
Lemma process_file_write_targets (W : World) (args : Task) (p : Path) (d : bytes) :
  In (p, d) (writes (snd (process_file W args))) ->
  exists b, p = output_path_in W args b.
Proof.
  all_runs; intros Hin;
    repeat (destruct Hin as [[= <- <-]|Hin]; [eexists; reflexivity|]);
    contradiction.
Qed.

(** X7: with an absolute entry path the bucket directory and the archive
    name play no part: [bucket / zip_name / file_path] is the entry path
    itself, so every write of [process_file] goes to that path, wherever
    it is; and on a file system that accepts the writes there is such a
    write. *)
Theorem absolute_entry_written_in_place (W : World) (args : Task) :
  absolute (file_path args) = true ->
  (forall b, output_path_in W args b = file_path args) /\
  (forall p d, In (p, d) (writes (snd (process_file W args))) -> p = file_path args) /\
  (accepts_writes W -> writes (snd (process_file W args)) <> []).
Proof.
  intros Habs.
  assert (Hout : forall b, output_path_in W args b = file_path args)
    by (intros b; unfold output_path_in, joinpath; rewrite Habs; reflexivity).
  split; [exact Hout|]. split.
  - intros p d Hin.
    destruct (process_file_write_targets W args p d Hin) as [b ->]. apply Hout.
  - intros Hfs.
    destruct (read_entry W args) as [data|e] eqn:Hread.
    2:{ rewrite (run_read_failure W args Hfs e Hread). discriminate. }
    destruct (fitz_open W data) as [doc|e] eqn:Hopen.
    2:{ rewrite (run_validation_failure W args Hfs data e Hread Hopen).
        discriminate. }
    destruct (is_scanned_pdf_returns W data 3) as [[|] Hscan].
    { rewrite (run_scanned W args Hfs data doc Hread Hopen Hscan). discriminate. }
    destruct (compress_pdf_in_memory W data) as [cdata|e] eqn:Hgs.
    2:{ rewrite (run_compression_failure W args Hfs data doc e Hread Hopen Hscan Hgs).
        discriminate. }
    destruct (Qlt_le_dec (kb cdata) (kb data)) as [Hlt|Hle].
    { rewrite (run_compressed W args Hfs data cdata doc Hread Hopen Hscan Hgs Hlt).
      discriminate. }
    destruct data as [|c data].
    + rewrite (run_empty_document W args Hfs cdata doc Hread Hopen Hscan Hgs).
      discriminate.
    + rewrite (run_uncompressed W args Hfs (c :: data) cdata doc
                 Hread Hopen Hscan Hgs Hle)
        by discriminate.
      discriminate.
Qed.

Lemma absolute_entry_written_in_place_witness :
  let W := sample_world (one_page_document text_page) gs_shrinks in
  let args := mkTask (mkPath true ["in"; "a.zip"]) (mkPath true ["etc"; "x.pdf"])
                     (mkPath true ["out"; "compressed"])
                     (mkPath true ["out"; "scanned_images"])
                     (mkPath true ["out"; "failure"]) in
  writes (snd (process_file W args)) =
    [(mkPath true ["etc"; "x.pdf"], [])] /\
  forall p d, In (p, d) (writes (snd (process_file W args))) ->
              p = mkPath true ["etc"; "x.pdf"].
Proof.
  split; [reflexivity|].
  exact (proj1 (proj2 (absolute_entry_written_in_place
                  (sample_world (one_page_document text_page) gs_shrinks)
                  (mkTask (mkPath true ["in"; "a.zip"]) (mkPath true ["etc"; "x.pdf"])
                          (mkPath true ["out"; "compressed"])
                          (mkPath true ["out"; "scanned_images"])
                          (mkPath true ["out"; "failure"]))
                  eq_refl))).
Defined.



(** ** The sample count of [is_scanned_pdf] *)

(** X9: the edges of the sample count.  With a count of 0 no page is
    looked at and every document that has a page is classified as scanned;
    with a negative count [random.sample] raises, which is caught, and no
    document is classified as scanned. *)
Theorem is_scanned_pdf_sample_count_edges (W : World) (pdf_data : bytes) :
  (forall doc,
     fitz_open W pdf_data = Return doc ->
     0 < page_count doc ->
     random_sample W (page_count doc) 0 = [] ->
     is_scanned_pdf W pdf_data 0 = Return true) /\
  (forall k, (k < 0)%Z -> is_scanned_pdf W pdf_data k = Return false).
Proof.
  split.
  - intros doc Hopen Hpages Hsample.
    apply is_scanned_pdf_true_iff. exists doc.
    repeat split; try assumption; try lia.
    unfold sampled_pages.
    replace (Z.to_nat (Z.min 0 (Z.of_nat (page_count doc)))) with 0 by lia.
    rewrite Hsample. constructor.
  - intros k Hk.
    destruct (is_scanned_pdf_returns W pdf_data k) as [[|] H]; [|exact H].
    apply is_scanned_pdf_true_iff in H.
    destruct H as (doc & _ & _ & Hk' & _). lia.
Qed.

Lemma is_scanned_pdf_sample_count_edges_witness :
  let W := sample_world (one_page_document text_page) gs_shrinks in
  is_scanned_pdf W sample_pdf 0 = Return true /\
  is_scanned_pdf W sample_pdf (-1) = Return false.
Proof.
  destruct (is_scanned_pdf_sample_count_edges
              (sample_world (one_page_document text_page) gs_shrinks) sample_pdf)
    as [Hzero Hneg].
  split.
  - apply (Hzero (one_page_document text_page)); [reflexivity | simpl; lia | reflexivity].
  - apply Hneg. lia.
Defined.

(** ** How [main] logs a result *)

(** How [main] logs a result whose status is [failed: ] and the error. *)
Lemma failed_result_logged (r : Res.t) :
  Res.status r = ("failed: " ++ Res.error r)%string ->
  Main.log_level r = Main.ERROR /\
  ~ (Res.status r = "success (scanned)" \/
     Res.status r = "success (compressed)" \/
     Res.status r = "success (uncompressed (larger size))").
Proof.
  intros Hstatus. unfold Main.log_level. rewrite Hstatus. split.
  - reflexivity.
  - intros [H|[H|H]]; discriminate H.
Qed.

(** How [main] logs a result whose status is a success. *)
Lemma success_result_logged (r : Res.t) :
  Res.status r = "success (scanned)" \/
  Res.status r = "success (compressed)" \/
  Res.status r = "success (uncompressed (larger size))" ->
  Main.log_level r = Main.INFO /\
  Res.status r <> ("failed: " ++ Res.error r)%string.
Proof.
  unfold Main.log_level.
  intros [H|[H|H]]; rewrite H; (split; [reflexivity | discriminate]).
Qed.

Lemma error_text_logged (format_2f : Q -> string) (r : Res.t) :
  Res.error r <> "" ->
  exists head,
    Main.log_msg format_2f r = (head ++ " | Error: " ++ Res.error r)%string.
Proof.
  intros Hne. unfold Main.log_msg.
  destruct (String.eqb_spec (Res.error r) "") as [E|_]; [contradiction|].
  eexists. reflexivity.
Qed.

(** X10: [main] logs every result [process_file] returns at the error
    level exactly when the run ended in the handler of [process_file],
    that is when the status is [failed: ] followed by the error text, and
    at the info level exactly when the status is one of the three
    successes, which have no error text; a result with an error text is
    therefore logged at the error level, with the text appended to the
    message.  On a file system that accepts the writes every run returns
    a result. *)
Theorem result_log_level (W : World) (args : Task) :
  (accepts_writes W -> exists r, fst (process_file W args) = Return r) /\
  forall r,
    fst (process_file W args) = Return r ->
    (Main.log_level r = Main.ERROR <->
     Res.status r = ("failed: " ++ Res.error r)%string) /\
    (Main.log_level r = Main.INFO <->
     Res.error r = "" /\
     (Res.status r = "success (scanned)" \/
      Res.status r = "success (compressed)" \/
      Res.status r = "success (uncompressed (larger size))")) /\
    (Res.error r <> "" ->
     Main.log_level r = Main.ERROR /\
     forall format_2f, exists head,
       Main.log_msg format_2f r = (head ++ " | Error: " ++ Res.error r)%string).
Proof.
  assert (Hfailed : forall r,
            Res.status r = ("failed: " ++ Res.error r)%string ->
            (Main.log_level r = Main.ERROR <->
             Res.status r = ("failed: " ++ Res.error r)%string) /\
            (Main.log_level r = Main.INFO <->
             Res.error r = "" /\
             (Res.status r = "success (scanned)" \/
              Res.status r = "success (compressed)" \/
              Res.status r = "success (uncompressed (larger size))")) /\
            (Res.error r <> "" ->
             Main.log_level r = Main.ERROR /\
             forall format_2f, exists head,
               Main.log_msg format_2f r
               = (head ++ " | Error: " ++ Res.error r)%string)).
  { intros r Hstatus.
    destruct (failed_result_logged r Hstatus) as [Hlevel Hno].
    split; [tauto|]. split.
    - rewrite Hlevel. split; [discriminate | tauto].
    - intros Hne. split; [exact Hlevel|].
      intros format_2f. apply error_text_logged. exact Hne. }
  assert (Hsuccess : forall r,
            Res.error r = "" ->
            (Res.status r = "success (scanned)" \/
             Res.status r = "success (compressed)" \/
             Res.status r = "success (uncompressed (larger size))") ->
            (Main.log_level r = Main.ERROR <->
             Res.status r = ("failed: " ++ Res.error r)%string) /\
            (Main.log_level r = Main.INFO <->
             Res.error r = "" /\
             (Res.status r = "success (scanned)" \/
              Res.status r = "success (compressed)" \/
              Res.status r = "success (uncompressed (larger size))")) /\
            (Res.error r <> "" ->
             Main.log_level r = Main.ERROR /\
             forall format_2f, exists head,
               Main.log_msg format_2f r
               = (head ++ " | Error: " ++ Res.error r)%string)).
  { intros r Herror Hstatus.
    destruct (success_result_logged r Hstatus) as [Hlevel Hno].
    split; [|split].
    - rewrite Hlevel. split; [discriminate | contradiction].
    - tauto.
    - contradiction. }
  split.
  - intros Hfs. destruct (process_file_returns W args Hfs) as (r & Hr & _). eauto.
  - all_runs; intros r Hr; try discriminate Hr; injection Hr as <-;
      first [ apply Hfailed; reflexivity
            | apply Hsuccess; [reflexivity | simpl; tauto] ].
Qed.

(** ** The tasks [main] collects *)

Lemma archive_tasks_in (output_dir zip_path : Path) (entries : list ZipInfo) (t : Task) :
  In t (Main.archive_tasks output_dir zip_path entries) <->
  exists file_info,
    In file_info entries /\ is_dir file_info = false /\
    t = mkTask zip_path (path_of_str (filename file_info))
               (Main.compressed_dir output_dir) (Main.scanned_dir output_dir)
               (Main.failure_dir output_dir).
Proof.
  induction entries as [|file_info rest IH]; simpl.
  - split; [contradiction | intros (? & [] & _)].
  - destruct (is_dir file_info) eqn:Hdir; simpl; rewrite IH; split.
    + intros (fi & Hin & Hrest). exists fi. tauto.
    + intros (fi & [<-|Hin] & Hd & Ht); [congruence|]. exists fi. tauto.
    + intros [<-|(fi & Hin & Hrest)].
      * exists file_info. tauto.
      * exists fi. tauto.
    + intros (fi & [<-|Hin] & Hd & Ht); [left; congruence|].
      right. exists fi. tauto.
Qed.

Lemma archive_tasks_length (output_dir zip_path : Path) (entries : list ZipInfo) :
  List.length (Main.archive_tasks output_dir zip_path entries) =
  List.length (filter (fun file_info => negb (is_dir file_info)) entries).
Proof.
  induction entries as [|file_info rest IH]; simpl; [reflexivity|].
  destruct (is_dir file_info); simpl; rewrite IH; reflexivity.
Qed.

Lemma collect_tasks_raises_iff (infolist : Path -> outcome (list ZipInfo))
      (output_dir : Path) (archives : list Path) (e : exn) :
  Main.collect_tasks infolist output_dir archives = Raise e <->
  exists before zip_path after,
    archives = before ++ zip_path :: after /\
    Forall (fun z => exists entries, infolist z = Return entries) before /\
    infolist zip_path = Raise e.
Proof.
  induction archives as [|z rest IH]; simpl.
  - split; [discriminate|].
    intros (before & z & after & Heq & _). destruct before; discriminate.
  - destruct (infolist z) as [entries|e0] eqn:Hlist; simpl.
    + destruct (Main.collect_tasks infolist output_dir rest) as [task_args|e1];
        simpl.
      * split; [discriminate|].
        intros (before & z' & after & Heq & Hbefore & Hz).
        destruct before as [|b before]; simpl in Heq;
          injection Heq as Hhead Htail; subst.
        -- congruence.
        -- inversion Hbefore; subst.
           assert (Habs : Return task_args = Raise e :> outcome (list Task))
             by (apply IH; exists before, z', after; auto).
           discriminate Habs.
      * split.
        -- intros [= <-].
           destruct (proj1 IH eq_refl) as (before & z' & after & Heq & Hbefore & Hz).
           exists (z :: before), z', after. subst rest.
           split; [reflexivity|]. split; [constructor; eauto | exact Hz].
        -- intros (before & z' & after & Heq & Hbefore & Hz).
           destruct before as [|b before]; simpl in Heq;
             injection Heq as Hhead Htail; subst.
           ++ congruence.
           ++ inversion Hbefore; subst. apply IH.
              exists before, z', after. auto.
    + split.
      * intros [= <-]. exists [], z, rest.
        split; [reflexivity|]. split; [constructor | exact Hlist].
      * intros (before & z' & after & Heq & Hbefore & Hz).
        destruct before as [|b before]; simpl in Heq;
          injection Heq as Hhead Htail; subst.
        -- congruence.
        -- inversion Hbefore as [|? ? [es Hes] _]; subst. congruence.
Qed.

Lemma collect_tasks_returns (infolist : Path -> outcome (list ZipInfo))
      (output_dir : Path) (archives : list Path) (tasks : list Task) :
  Main.collect_tasks infolist output_dir archives = Return tasks ->
  Forall (fun z => exists entries, infolist z = Return entries) archives /\
  List.length tasks =
    list_sum (map (fun z =>
                     match infolist z with
                     | Return entries =>
                         List.length (filter (fun fi => negb (is_dir fi)) entries)
                     | Raise _ => 0
                     end) archives) /\
  forall t,
    In t tasks <->
    exists zip_path entries file_info,
      In zip_path archives /\ infolist zip_path = Return entries /\
      In file_info entries /\ is_dir file_info = false /\
      t = mkTask zip_path (path_of_str (filename file_info))
                 (Main.compressed_dir output_dir) (Main.scanned_dir output_dir)
                 (Main.failure_dir output_dir).
Proof.
  revert tasks. induction archives as [|z rest IH]; simpl; intros tasks.
  - intros [= <-]. split; [constructor|]. split; [reflexivity|].
    intros t. split; [contradiction|]. intros (? & ? & ? & [] & _).
  - destruct (infolist z) as [entries|e0] eqn:Hlist; simpl; [|discriminate].
    destruct (Main.collect_tasks infolist output_dir rest) as [task_args|e1];
      simpl; [|discriminate].
    intros [= <-].
    destruct (IH task_args eq_refl) as (Hall & Hlen & Hin).
    split; [constructor; eauto|]. split.
    + rewrite length_app, archive_tasks_length, Hlen. reflexivity.
    + intros t. rewrite in_app_iff, archive_tasks_in, Hin. split.
      * intros [(fi & Hfi & Hd & Ht)|(z' & es & fi & Hz & Hes & Hrest')].
        -- exists z, entries, fi. tauto.
        -- exists z', es, fi. tauto.
      * intros (z' & es & fi & [<-|Hz] & Hes & Hfi & Hd & Ht).
        -- left. exists fi. rewrite Hlist in Hes. injection Hes as <-. tauto.
        -- right. exists z', es, fi. tauto.
Qed.

(** X11: the enumeration of [main] is all or nothing.  It raises exactly
    when some archive cannot be listed, with the exception of the first
    such archive, and then no task at all is produced; otherwise it yields
    one task for every entry that is not a directory, and no other task. *)
Theorem collect_tasks_all_or_nothing (infolist : Path -> outcome (list ZipInfo))
        (output_dir : Path) (archives : list Path) :
  (forall e,
     Main.collect_tasks infolist output_dir archives = Raise e <->
     exists before zip_path after,
       archives = before ++ zip_path :: after /\
       Forall (fun z => exists entries, infolist z = Return entries) before /\
       infolist zip_path = Raise e) /\
  (forall tasks,
     Main.collect_tasks infolist output_dir archives = Return tasks ->
     Forall (fun z => exists entries, infolist z = Return entries) archives /\
     List.length tasks =
       list_sum (map (fun z =>
                        match infolist z with
                        | Return entries =>
                            List.length (filter (fun fi => negb (is_dir fi)) entries)
                        | Raise _ => 0
                        end) archives) /\
     forall t,
       In t tasks <->
       exists zip_path entries file_info,
         In zip_path archives /\ infolist zip_path = Return entries /\
         In file_info entries /\ is_dir file_info = false /\
         t = mkTask zip_path (path_of_str (filename file_info))
                    (Main.compressed_dir output_dir) (Main.scanned_dir output_dir)
                    (Main.failure_dir output_dir)).
Proof.
  split.
  - intros e. apply collect_tasks_raises_iff.
  - intros tasks. apply collect_tasks_returns.
Qed.

(** X12: for a task that [main] collected from an entry whose path is
    relative and never steps back (its name does not start with a slash
    and has no component of two dots), in an archive whose name is not two
    dots, every file [process_file] writes lies below the output directory
    as far as the components tell: they are those of the output directory,
    then [compressed], [scanned_images] or [failure], then the archive name
    and the entry path, none of which steps back; so the file is not in
    [logs]. *)
Theorem main_tasks_write_below_buckets (W : World)
        (infolist : Path -> outcome (list ZipInfo)) (output_dir : Path)
        (archives : list Path) (tasks : list Task) (t : Task)
        (p : Path) (d : bytes) :
  Main.collect_tasks infolist output_dir archives = Return tasks ->
  In t tasks ->
  absolute (file_path t) = false ->
  ~ In ".." (parts (file_path t)) ->
  stem W (zip_path t) <> ".." ->
  In (p, d) (writes (snd (process_file W t))) ->
  (exists bucket,
     In bucket ["compressed"; "scanned_images"; "failure"] /\
     lexically_below (joinpath output_dir (path_of_str bucket)) p /\
     absolute p = absolute output_dir /\
     parts p = parts output_dir ++ bucket
                 :: parts (path_of_name (stem W (zip_path t))) ++ parts (file_path t)) /\
  (forall rest, parts p <> parts output_dir ++ "logs" :: rest).
Proof.
  intros Htasks Ht Hrel Hback Hname Hin.
  destruct (collect_tasks_returns infolist output_dir archives tasks Htasks)
    as (_ & _ & Hform).
  apply Hform in Ht. destruct Ht as (z & entries & fi & _ & _ & _ & _ & ->).
  destruct (process_file_write_targets W _ p d Hin) as [b ->].
  assert (Hbucket : exists bucket,
             In bucket ["compressed"; "scanned_images"; "failure"] /\
             lexically_below (joinpath output_dir (path_of_str bucket))
               (output_path_in W
                  (mkTask z (path_of_str (filename fi))
                          (Main.compressed_dir output_dir)
                          (Main.scanned_dir output_dir)
                          (Main.failure_dir output_dir)) b) /\
             absolute (output_path_in W
                         (mkTask z (path_of_str (filename fi))
                                 (Main.compressed_dir output_dir)
                                 (Main.scanned_dir output_dir)
                                 (Main.failure_dir output_dir)) b)
             = absolute output_dir /\
             parts (output_path_in W
                      (mkTask z (path_of_str (filename fi))
                              (Main.compressed_dir output_dir)
                              (Main.scanned_dir output_dir)
                              (Main.failure_dir output_dir)) b)
             = parts output_dir ++ bucket
                 :: parts (path_of_name (stem W z)) ++ parts (path_of_str (filename fi))).
  { pose proof (output_path_lexically_below W _ b Hrel Hback Hname) as Hbelow.
    destruct (output_path_below_bucket W _ b Hrel) as [Habs Hparts].
    rewrite Habs, Hparts. simpl in *.
    destruct b; simpl;
      [ exists "compressed" | exists "scanned_images" | exists "failure" ];
      (split; [simpl; tauto|]); (split; [exact Hbelow|]); (split; [reflexivity|]);
      rewrite <- app_assoc; reflexivity. }
  split; [exact Hbucket|].
  destruct Hbucket as (bucket & Hb & _ & _ & Hparts).
  intros rest Heq. rewrite Hparts in Heq.
  apply app_inv_head in Heq. injection Heq as Hbn _.
  simpl in Hb. destruct Hb as [<-|[<-|[<-|[]]]]; discriminate Hbn.
Qed.

Lemma main_tasks_write_below_buckets_witness :
  let W := sample_world (one_page_document text_page) gs_shrinks in
  let infolist := fun _ : Path =>
    Return [mkZipInfo "docs/" true; mkZipInfo "x.pdf" false] in
  exists bucket,
    In bucket ["compressed"; "scanned_images"; "failure"] /\
    lexically_below (joinpath (mkPath true ["out"]) (path_of_str bucket))
                    (mkPath true ["out"; "compressed"; "a"; "x.pdf"]) /\
    parts (mkPath true ["out"; "compressed"; "a"; "x.pdf"]) =
      ["out"] ++ bucket :: ["a"] ++ ["x.pdf"].
Proof.
  destruct (main_tasks_write_below_buckets
              (sample_world (one_page_document text_page) gs_shrinks)
              (fun _ => Return [mkZipInfo "docs/" true; mkZipInfo "x.pdf" false])
              (mkPath true ["out"]) [mkPath true ["in"; "a.zip"]]
              [sample_task "x.pdf"] (sample_task "x.pdf")
              (mkPath true ["out"; "compressed"; "a"; "x.pdf"]) [x25]
              eq_refl (or_introl eq_refl) eq_refl)
    as [(bucket & Hb & Hbelow & _ & Hparts) _].
  - simpl. intros [H|[]]. discriminate H.
  - discriminate.
  - left. reflexivity.
  - exists bucket. split; [exact Hb|]. split; [exact Hbelow | exact Hparts].
Defined.

(** ** [setup_logging] *)



(** ** [process_file] of scripts/process5.py *)

(** X14: [process_file] of process5.py lets an exception escape in exactly
    two cases: [os.makedirs] raises, or Ghostscript exits with a non-zero
    status and its diagnostic stream does not decode as UTF-8 (the decoding
    happens inside the handler).  Every other failure is turned into the
    error text of the returned tuple. *)
Theorem p5_process_file_raises_iff (os : P5.OS) (input_path output_path : string)
        (e : exn) :
  fst (P5.process_file os input_path output_path) = Raise e <->
  P5.makedirs os (P5.dirname output_path) = Raise e \/
  ((exists u, P5.makedirs os (P5.dirname output_path) = Return u) /\
   (exists original_size, P5.getsize os input_path = Return original_size) /\
   exists returncode stderr,
     P5.run os (P5.command input_path output_path)
     = P5.CalledProcessError returncode stderr /\
     P5.decode_utf8 os stderr = Raise e).
Proof.
  unfold P5.process_file.
  destruct (P5.makedirs os (P5.dirname output_path)) as [u|e0]; simpl.
  2:{ split.
      - intros [= <-]. left. reflexivity.
      - intros [[= <-]|((u & Hu) & _)]; [reflexivity | discriminate]. }
  destruct (P5.getsize os input_path) as [n|e0]; simpl.
  2:{ split; [discriminate|].
      intros [H|(_ & (n & Hn) & _)]; discriminate. }
  destruct (P5.run os (P5.command input_path output_path)) as [rc err|e0|]; simpl.
  - destruct (P5.decode_utf8 os err) as [diag|e0] eqn:Hdec; simpl.
    + split; [discriminate|].
      intros [H|(_ & _ & rc' & err' & [= <- <-] & Hd)]; [discriminate|congruence].
    + split.
      * intros [= <-]. right. split; [eauto|]. split; [eauto|].
        exists rc, err. split; [reflexivity | exact Hdec].
      * intros [H|(_ & _ & rc' & err' & [= <- <-] & Hd)]; [discriminate|congruence].
  - split; [discriminate|].
    intros [H|(_ & _ & rc' & err' & H & _)]; discriminate.
  - destruct (P5.getsize_after_run os output_path); simpl;
      (split; [discriminate|]);
      intros [H|(_ & _ & rc' & err' & H & _)]; discriminate.
Qed.

(** X15: in the tuple [process_file] of process5.py returns, the error text
    is absent exactly when the ratio is present, and exactly when the
    compressed size is present; the original size is absent exactly when
    [os.path.getsize] of the input raised.  The error text is absent
    exactly when both sizes could be read and Ghostscript returned; the
    ratio is then [compressed_size / original_size], or infinity when the
    input is empty. *)
Theorem p5_row_invariants (os : P5.OS) (input_path output_path : string) (row : P5.Row) :
  fst (P5.process_file os input_path output_path) = Return row ->
  P5.input_path row = input_path /\
  P5.output_path row = output_path /\
  (P5.error_msg row = None <-> P5.ratio row <> None) /\
  (P5.ratio row <> None <-> P5.compressed_size row <> None) /\
  (P5.original_size row = None <-> exists e, P5.getsize os input_path = Raise e) /\
  (P5.error_msg row = None <->
   exists original_size compressed_size,
     P5.getsize os input_path = Return original_size /\
     P5.run os (P5.command input_path output_path) = P5.RunCompleted /\
     P5.getsize_after_run os output_path = Return compressed_size /\
     P5.original_size row = Some original_size /\
     P5.compressed_size row = Some compressed_size /\
     P5.ratio row =
       Some (if (0 <? original_size)%Z
             then P5.Finite (inject_Z compressed_size / inject_Z original_size)%Q
             else P5.Infinity)).
Proof.
  unfold P5.process_file.
  destruct (P5.makedirs os (P5.dirname output_path)) as [u|e0]; simpl; [|discriminate].
  destruct (P5.getsize os input_path) as [n|e0]; simpl.
  2:{ intros [= <-]. simpl. repeat split; try congruence; eauto.
      intros (n & c & H & _). discriminate. }
  destruct (P5.run os (P5.command input_path output_path)) as [rc err|e0|]; simpl.
  - destruct (P5.decode_utf8 os err) as [diag|e0]; simpl; [|discriminate].
    intros [= <-]. simpl. repeat split; try congruence.
    + intros (e & H). discriminate.
    + intros (n' & c & _ & H & _). discriminate.
  - intros [= <-]. simpl. repeat split; try congruence.
    + intros (e & H). discriminate.
    + intros (n' & c & _ & H & _). discriminate.
  - destruct (P5.getsize_after_run os output_path) as [c|e0]; simpl;
      intros [= <-]; simpl; repeat split; try congruence.
    + intros (e & H). discriminate.
    + intros _. exists n, c. repeat split.
    + intros (e & H). discriminate.
    + intros (n' & c & _ & _ & H & _). discriminate.
Qed.

Lemma p5_row_invariants_witness :
  exists row,
    fst (P5.process_file p5_sample_os "in/a.PDF" "/out/a.PDF") = Return row /\
    P5.error_msg row = None /\
    P5.ratio row = Some (P5.Finite (inject_Z 1000 / inject_Z 4000)%Q).
Proof.
  eexists. split; [reflexivity|].
  destruct (p5_row_invariants p5_sample_os "in/a.PDF" "/out/a.PDF" _ eq_refl)
    as (_ & _ & _ & _ & _ & Hok).
  split; [reflexivity|].
  destruct (proj1 Hok eq_refl) as (n & c & Hn & _ & Hc & _ & _ & Hratio).
  injection Hn as <-. injection Hc as <-. exact Hratio.
Defined.

(** X16: [process_file] of process5.py first creates the directory of the
    output path, whatever follows; it starts Ghostscript at most once, with
    the command line built from the two paths, and exactly when the
    directory could be created and the size of the input could be read. *)
Theorem p5_ghostscript_started_iff (os : P5.OS) (input_path output_path : string) :
  (snd (P5.process_file os input_path output_path)
   = [P5.Makedirs (P5.dirname output_path)] \/
   snd (P5.process_file os input_path output_path)
   = [P5.Makedirs (P5.dirname output_path);
      P5.Run (P5.command input_path output_path)]) /\
  (In (P5.Run (P5.command input_path output_path))
      (snd (P5.process_file os input_path output_path)) <->
   (exists u, P5.makedirs os (P5.dirname output_path) = Return u) /\
   (exists original_size, P5.getsize os input_path = Return original_size)).
Proof.
  unfold P5.process_file.
  destruct (P5.makedirs os (P5.dirname output_path)) as [u|e0]; simpl.
  2:{ split; [left; reflexivity|]. split.
      - intros [H|[]]. discriminate H.
      - intros [[u H] _]. discriminate H. }
  destruct (P5.getsize os input_path) as [n|e0]; simpl.
  2:{ split; [left; reflexivity|]. split.
      - intros [H|[]]. discriminate H.
      - intros [_ [n H]]. discriminate H. }
  assert (Hgoal :
            forall calls,
              calls = [P5.Makedirs (P5.dirname output_path);
                       P5.Run (P5.command input_path output_path)] ->
              (calls = [P5.Makedirs (P5.dirname output_path)] \/
               calls = [P5.Makedirs (P5.dirname output_path);
                        P5.Run (P5.command input_path output_path)]) /\
              (In (P5.Run (P5.command input_path output_path)) calls <->
               (exists u0 : unit, Return u = Return u0) /\
               (exists original_size : Z, Return n = Return original_size))).
  { intros calls ->. split; [right; reflexivity|]. split.
    - intros _. split; eauto.
    - intros _. right. left. reflexivity. }
  destruct (P5.run os (P5.command input_path output_path)) as [rc err|e0|]; simpl.
  - destruct (P5.decode_utf8 os err); apply Hgoal; reflexivity.
  - apply Hgoal; reflexivity.
  - destruct (P5.getsize_after_run os output_path); apply Hgoal; reflexivity.
Qed.

(** ** [find_pdf_files] *)

Lemma substring_all (s : string) : substring 0 (String.length s) s = s.
Proof. induction s as [|c s IH]; simpl; [reflexivity | rewrite IH; reflexivity]. Qed.

Lemma substring_none (s : string) : substring 0 0 s = EmptyString.
Proof. destruct s; reflexivity. Qed.

Lemma string_length_app (a b : string) :
  String.length (a ++ b) = String.length a + String.length b.
Proof. induction a as [|c a IH]; simpl; [reflexivity | rewrite IH; reflexivity]. Qed.

Lemma substring_after_prefix (pre suf : string) :
  substring (String.length pre) (String.length suf) (pre ++ suf) = suf.
Proof.
  induction pre as [|c pre IH]; simpl; [apply substring_all | exact IH].
Qed.

Lemma string_split_at (n : nat) (s : string) :
  n <= String.length s ->
  s = (substring 0 n s ++ substring n (String.length s - n) s)%string.
Proof.
  revert s. induction n as [|n IH]; intros s Hn.
  - rewrite substring_none, Nat.sub_0_r, substring_all. reflexivity.
  - destruct s as [|c s]; simpl in Hn; [lia|].
    simpl. f_equal. apply IH. lia.
Qed.

(** [s.endswith(suffix)] holds exactly when [s] is something followed by
    [suffix]. *)
Lemma endswith_iff (s suffix : string) :
  P5.endswith s suffix = true <-> exists pre, s = (pre ++ suffix)%string.
Proof.
  unfold P5.endswith. rewrite andb_true_iff, Nat.leb_le, String.eqb_eq. split.
  - intros [Hlen Hsub].
    exists (substring 0 (String.length s - String.length suffix) s).
    assert (Hn : String.length s - String.length suffix <= String.length s) by lia.
    pose proof (string_split_at _ s Hn) as Hsplit.
    replace (String.length s - (String.length s - String.length suffix))
      with (String.length suffix) in Hsplit by lia.
    rewrite Hsub in Hsplit. exact Hsplit.
  - intros [pre ->]. rewrite string_length_app. split; [lia|].
    replace (String.length pre + String.length suffix - String.length suffix)
      with (String.length pre) by lia.
    apply substring_after_prefix.
Qed.

Lemma lower_app (a b : string) :
  P5.lower (a ++ b) = (P5.lower a ++ P5.lower b)%string.
Proof. induction a as [|c a IH]; simpl; [reflexivity | rewrite IH; reflexivity]. Qed.

(** A string whose lower case is [pre' ++ suf'] splits the same way. *)
Lemma lower_split (s pre' suf' : string) :
  P5.lower s = (pre' ++ suf')%string ->
  exists pre suf,
    s = (pre ++ suf)%string /\ P5.lower pre = pre' /\ P5.lower suf = suf'.
Proof.
  revert s. induction pre' as [|c pre' IH]; intros s H; simpl in H.
  - exists EmptyString, s. repeat split. exact H.
  - destruct s as [|c0 s]; simpl in H; [discriminate|].
    injection H as Hc Hs.
    destruct (IH s Hs) as (pre & suf & -> & Hpre & Hsuf).
    exists (String c0 pre), suf. simpl. rewrite Hc, Hpre. repeat split. exact Hsuf.
Qed.

Lemma lower_char_dot (c : ascii) : P5.lower_char c = "."%char <-> c = "."%char.
Proof.
  destruct c as [[] [] [] [] [] [] [] []]; vm_compute; split; congruence.
Qed.

Lemma lower_char_p (c : ascii) :
  P5.lower_char c = "p"%char <-> (c = "p" \/ c = "P")%char.
Proof.
  destruct c as [[] [] [] [] [] [] [] []]; vm_compute;
    (split; [try discriminate; auto | intros [H|H]; congruence]).
Qed.

Lemma lower_char_d (c : ascii) :
  P5.lower_char c = "d"%char <-> (c = "d" \/ c = "D")%char.
Proof.
  destruct c as [[] [] [] [] [] [] [] []]; vm_compute;
    (split; [try discriminate; auto | intros [H|H]; congruence]).
Qed.

Lemma lower_char_f (c : ascii) :
  P5.lower_char c = "f"%char <-> (c = "f" \/ c = "F")%char.
Proof.
  destruct c as [[] [] [] [] [] [] [] []]; vm_compute;
    (split; [try discriminate; auto | intros [H|H]; congruence]).
Qed.

(** The test of [find_pdf_files] accepts the names that end in [.pdf] in
    any letter case. *)
Lemma pdf_test_iff (file : string) :
  P5.endswith (P5.lower file) ".pdf" = true <-> has_pdf_suffix file.
Proof.
  rewrite endswith_iff. split.
  - intros [pre' H].
    destruct (lower_split file pre' ".pdf" H) as (stem & suf & -> & _ & Hsuf).
    destruct suf as [|c1 [|c2 [|c3 [|c4 [|c5 suf]]]]]; simpl in Hsuf; try discriminate.
    injection Hsuf as H1 H2 H3 H4.
    apply (proj1 (lower_char_dot c1)) in H1. rewrite H1.
    exists stem, c2, c3, c4. split; [reflexivity|].
    split; [apply lower_char_p; exact H2|].
    split; [apply lower_char_d; exact H3 | apply lower_char_f; exact H4].
  - intros (stem & p & d & f & -> & Hp & Hd & Hf).
    exists (P5.lower stem). rewrite lower_app. simpl.
    rewrite (proj2 (lower_char_p p) Hp), (proj2 (lower_char_d d) Hd),
      (proj2 (lower_char_f f) Hf).
    reflexivity.
Qed.

Lemma pdf_files_in_iff (root : string) (files : list string) (p : string) :
  In p (P5.pdf_files_in root files) <->
  exists file, In file files /\ has_pdf_suffix file /\ p = P5.join root file.
Proof.
  induction files as [|file rest IH]; simpl.
  - split; [contradiction | intros (? & [] & _)].
  - destruct (P5.endswith (P5.lower file) ".pdf") eqn:Htest.
    + apply pdf_test_iff in Htest. simpl. rewrite IH. split.
      * intros [<-|(f & Hin & Hrest)]; [exists file | exists f]; tauto.
      * intros (f & [<-|Hin] & Hs & Hp); [left; congruence|].
        right. exists f. tauto.
    + rewrite IH. split.
      * intros (f & Hin & Hrest). exists f. tauto.
      * intros (f & [<-|Hin] & Hs & Hp).
        -- apply pdf_test_iff in Hs. congruence.
        -- exists f. tauto.
Qed.

(** X17: [find_pdf_files] returns [os.path.join(root, file)] for exactly
    the files (not the directories) met by the walk whose name ends in
    [.pdf] in any letter case. *)
Theorem find_pdf_files_iff (os : P5.OS) (input_dir p : string) :
  In p (P5.find_pdf_files os input_dir) <->
  exists root dirs files file,
    In (root, dirs, files) (P5.walk os input_dir) /\
    In file files /\ has_pdf_suffix file /\ p = P5.join root file.
Proof.
  unfold P5.find_pdf_files.
  induction (P5.walk os input_dir) as [|[[root dirs] files] rest IH]; simpl.
  - split; [contradiction | intros (? & ? & ? & ? & [] & _)].
  - rewrite in_app_iff, pdf_files_in_iff, IH. split.
    + intros [(file & Hin & Hs & Hp)|(r & ds & fs & file & Hin & Hrest)].
      * exists root, dirs, files, file. tauto.
      * exists r, ds, fs, file. tauto.
    + intros (r & ds & fs & file & [[= <- <- <-]|Hin] & Hf & Hs & Hp).
      * left. exists file. tauto.
      * right. exists r, ds, fs, file. tauto.
Qed.
